(** * Win32 message listener (electron/win32-message-listener/listener.cpp)

    A shallow embedding of the hidden-window listener that bridges the MAME
    output protocol into JavaScript callbacks: the window procedure
    [WndProc], the three [push*ToJS] helpers, the message-name resolution
    done by [messagePump], and the two N-API entry points [StartListener]
    and [StopListener].

    Conventions.
    - [UINT], [WPARAM], [LPARAM], [HWND] and [int] are [Z]; every narrowing
      cast of the source is written out ([to_UINT], [to_int]).
    - [std::unordered_map<UINT, std::string>] is a [gmap Z string].
    - The process-wide statics are the fields of [Globals]; a function that
      touches them takes and returns a [Globals].
    - Calls that leave the module (JS callback invocations, [PostMessage],
      thread operations) are recorded, in program order, in a list of
      [Effect]s.
    - A C++ exception leaving a function is the [Thrown] outcome. *)

From Stdlib Require Import ZArith List Bool Ascii String DecimalString Lia.
From Stdlib.Strings Require Import Byte.
From Stdlib Require Import DecimalPos DecimalN.
From stdpp Require Import base option list gmap strings.

Import ListNotations.
Local Open Scope string_scope.
Local Open Scope Z_scope.

(** ** Machine integers *)

Definition UINT_MAX : Z := 4294967295.
Definition INT_MIN  : Z := -2147483648.
Definition INT_MAX  : Z := 2147483647.

(** [static_cast<UINT>(x)] : keep the low 32 bits. *)
Definition to_UINT (x : Z) : Z := x mod 2 ^ 32.

(** [static_cast<int>(x)] : keep the low 32 bits, read as two's complement. *)
Definition to_int (x : Z) : Z := (x + 2 ^ 31) mod 2 ^ 32 - 2 ^ 31.

Definition sizeof_UINT : Z := 4.

(** ** Bytes and strings *)

(** The byte at offset [i], as a number.  Past the end of the modelled
    memory the model reads 0; the handler only reads offsets 0..3 after
    checking that the declared length is at least 5. *)
Definition byte_at (buf : list byte) (i : nat) : Z :=
  Z.of_N (Byte.to_N (nth i buf x00)).

(** [*reinterpret_cast<const UINT*>(buf)] on a little-endian target (every
    Windows target is). *)
Definition read_UINT (buf : list byte) : Z :=
  Z.lor (byte_at buf 0)
    (Z.lor (Z.shiftl (byte_at buf 1) 8)
       (Z.lor (Z.shiftl (byte_at buf 2) 16) (Z.shiftl (byte_at buf 3) 24))).

(** [strnlen(s, maxlen)] : the number of bytes before the first NUL, at most
    [maxlen].  The list is the memory from [s] on; the scan also stops where
    the modelled memory ends. *)
Fixpoint strnlen (s : list byte) (maxlen : nat) : nat :=
  match maxlen, s with
  | S m, b :: r => if Byte.eqb b x00 then O else S (strnlen r m)
  | _, _ => O
  end.

(** [std::string(p, n)] : the [n] bytes at [p]. *)
Definition std_string (p : list byte) (n : nat) : string :=
  string_of_list_byte (take n p).

(** [std::string::find(c)] ; [None] is [npos]. *)
Fixpoint find (s : string) (c : ascii) : option nat :=
  match s with
  | EmptyString => None
  | String a r => if Ascii.eqb a c then Some O else S <$> find r c
  end.

(** [s.substr(pos)] for [pos <= s.size()] (the only use in the source has
    [pos = eq + 1] with [eq < s.size()]). *)
Fixpoint substr_from (pos : nat) (s : string) : string :=
  match pos, s with
  | S p, String _ r => substr_from p r
  | _, _ => s
  end.

(** [s.substr(pos, n)]. *)
Definition substr (pos n : nat) (s : string) : string :=
  String.substring pos n s.

(** [std::to_string(unsigned)] : decimal digits, no sign, no padding. *)
Definition to_string (n : Z) : string :=
  NilZero.string_of_uint (N.to_uint (Z.to_N n)).

(** ** [std::stoi]

    [std::stoi(str)] calls [strtol(str.c_str(), &end, 10)]: leading white
    space is skipped, one optional sign is read, then the longest run of
    decimal digits.  No digit at all raises [std::invalid_argument]; a value
    outside [int] (which is also [long] on Windows) raises
    [std::out_of_range].  Whatever follows the digits is ignored.  A NUL
    inside the string is neither white space, sign nor digit, so stopping at
    the C terminator needs no separate case. *)

Inductive exn : Type :=
| invalid_argument
| out_of_range.

Definition isspace (c : ascii) : bool :=
  let n := Z.of_N (N_of_ascii c) in
  (n =? 32) || ((9 <=? n) && (n <=? 13)).

Definition digit_val (c : ascii) : option Z :=
  let n := Z.of_N (N_of_ascii c) in
  if (48 <=? n) && (n <=? 57) then Some (n - 48) else None.

Fixpoint skip_space (s : string) : string :=
  match s with
  | String c r => if isspace c then skip_space r else s
  | EmptyString => s
  end.

(** Accumulates the digit run; [None] while no digit has been read. *)
Fixpoint parse_digits (s : string) (acc : option Z) : option Z :=
  match s with
  | String c r =>
      match digit_val c with
      | Some d => parse_digits r (Some (10 * default 0 acc + d))
      | None => acc
      end
  | EmptyString => acc
  end.

Definition stoi (s : string) : exn + Z :=
  let s1 := skip_space s in
  let '(neg, s2) :=
    match s1 with
    | String "-" r => (true, r)
    | String "+" r => (false, r)
    | _ => (false, s1)
    end in
  match parse_digits s2 None with
  | None => inl invalid_argument
  | Some m =>
      let v := if neg then - m else m in
      if (INT_MIN <=? v) && (v <=? INT_MAX) then inr v else inl out_of_range
  end.

(** ** Win32 constants *)

Definition WM_COPYDATA    : Z := 74.      (* 0x004A *)
Definition WM_QUIT        : Z := 18.      (* 0x0012 *)
Definition HWND_BROADCAST : Z := 65535.   (* ((HWND)0xffff) *)
Definition TRUE           : Z := 1.

(** The seven [UINT WM_MAME_*] globals. *)
Record MsgIds : Type := {
  WM_MAME_START    : Z;
  WM_MAME_STOP     : Z;
  WM_MAME_REGISTER : Z;
  WM_MAME_UPDATE   : Z;
  WM_MAME_GET_ID   : Z;
  WM_MAME_UNREG    : Z;
  WM_MAME_REG      : Z
}.

(** The "resolve custom messages" block of [messagePump]: each global is the
    identifier [RegisterWindowMessageA] hands out for the given name. *)
Definition messagePump_resolve (RegisterWindowMessageA : string → Z) : MsgIds :=
  {| WM_MAME_REG      := RegisterWindowMessageA "MAMEOutputRegister";
     WM_MAME_START    := RegisterWindowMessageA "MAMEOutputStart";
     WM_MAME_STOP     := RegisterWindowMessageA "MAMEOutputStop";
     WM_MAME_REGISTER := RegisterWindowMessageA "MAMEOutputRegister";
     WM_MAME_UPDATE   := RegisterWindowMessageA "MAMEOutputUpdateState";
     WM_MAME_GET_ID   := RegisterWindowMessageA "MAMEOutputGetIDString";
     WM_MAME_UNREG    := RegisterWindowMessageA "MAMEOutputUnregister" |}.

(** The message numbers [WndProc] compares against, in the order of its
    tests.  Registered messages lie in 0xC000..0xFFFF and differ for
    different names, so on a system where every registration succeeded this
    list has no duplicate. *)
Definition dispatch_ids (ids : MsgIds) : list Z :=
  [ WM_COPYDATA; WM_MAME_START ids; WM_MAME_REGISTER ids; WM_MAME_UPDATE ids;
    WM_MAME_UNREG ids; WM_MAME_STOP ids ].

Definition ids_distinct (ids : MsgIds) : Prop := NoDup (dispatch_ids ids).

(** [COPYDATASTRUCT]: the tag, the declared length, and the memory that
    [lpData] points to (the sender marshals [cbData] bytes). *)
Record COPYDATASTRUCT : Type := {
  dwData : Z;
  cbData : Z;
  lpData : list byte
}.

(** ** Process-wide state *)

Record Globals : Type := {
  g_mameHWND       : Z;                (* HWND, 0 is nullptr *)
  g_msgThread      : option Z;         (* Some tid: joinable, with that thread id *)
  g_running        : bool;
  g_idToName       : gmap Z string;
  g_currentRomName : string;
  g_tsfn           : bool              (* the handle inside g_tsfn is non-null *)
}.

Definition set_mameHWND (h : Z) (g : Globals) : Globals :=
  {| g_mameHWND := h; g_msgThread := g_msgThread g; g_running := g_running g;
     g_idToName := g_idToName g; g_currentRomName := g_currentRomName g;
     g_tsfn := g_tsfn g |}.

Definition set_msgThread (t : option Z) (g : Globals) : Globals :=
  {| g_mameHWND := g_mameHWND g; g_msgThread := t; g_running := g_running g;
     g_idToName := g_idToName g; g_currentRomName := g_currentRomName g;
     g_tsfn := g_tsfn g |}.

Definition set_running (b : bool) (g : Globals) : Globals :=
  {| g_mameHWND := g_mameHWND g; g_msgThread := g_msgThread g; g_running := b;
     g_idToName := g_idToName g; g_currentRomName := g_currentRomName g;
     g_tsfn := g_tsfn g |}.

Definition set_idToName (m : gmap Z string) (g : Globals) : Globals :=
  {| g_mameHWND := g_mameHWND g; g_msgThread := g_msgThread g;
     g_running := g_running g; g_idToName := m;
     g_currentRomName := g_currentRomName g; g_tsfn := g_tsfn g |}.

Definition set_currentRomName (s : string) (g : Globals) : Globals :=
  {| g_mameHWND := g_mameHWND g; g_msgThread := g_msgThread g;
     g_running := g_running g; g_idToName := g_idToName g;
     g_currentRomName := s; g_tsfn := g_tsfn g |}.

Definition set_tsfn (b : bool) (g : Globals) : Globals :=
  {| g_mameHWND := g_mameHWND g; g_msgThread := g_msgThread g;
     g_running := g_running g; g_idToName := g_idToName g;
     g_currentRomName := g_currentRomName g; g_tsfn := b |}.

(** The statics as the loader leaves them. *)
Definition initial : Globals :=
  {| g_mameHWND := 0; g_msgThread := None; g_running := true;
     g_idToName := ∅; g_currentRomName := ""; g_tsfn := false |}.

(** ** Effects *)

(** The object handed to the JS callback. *)
Inductive JsObject : Type :=
| KeyValue (key : string) (value : Z)        (* { key, value } *)
| KeyLabel (key : string) (label : string)   (* { key, label } *)
| KeyText  (key : string) (text : string).   (* { key, text }  *)

Inductive Effect : Type :=
| BlockingCall (o : JsObject)                       (* g_tsfn.BlockingCall, cb.Call({o}) *)
| PostMessage (hWnd Msg wParam lParam : Z)
| PostThreadMessage (idThread Msg wParam lParam : Z)
| TsfnNew                                           (* Napi::ThreadSafeFunction::New *)
| TsfnRelease                                       (* g_tsfn.Release() *)
| ThreadStart (tid : Z)                             (* std::thread(messagePump) *)
| ThreadJoin (tid : Z)                              (* g_msgThread.join() *)
| ThrowAsJavaScriptException (message : string).

(** How a window-procedure call ends. *)
Inductive Outcome : Type :=
| Returned (r : Z)
| Defaulted               (* return DefWindowProc(hwnd, msg, wp, lp) *)
| Thrown (e : exn).       (* an exception leaves WndProc *)

(** ** The JS bridge *)

Definition pushToJS (g : Globals) (key : string) (value : Z) : list Effect :=
  if negb (g_tsfn g) then [] else [BlockingCall (KeyValue key value)].

Definition pushLabelToJS (g : Globals) (key label : string) : list Effect :=
  if negb (g_tsfn g) then [] else [BlockingCall (KeyLabel key label)].

Definition pushStringToJS (g : Globals) (key s : string) : list Effect :=
  if negb (g_tsfn g) then [] else [BlockingCall (KeyText key s)].

(** [std::unordered_map::count]. *)
Definition count (m : gmap Z string) (k : Z) : Z :=
  match m !! k with Some _ => 1 | None => 0 end.

(** ** The window procedure *)

(** [cds] is the [COPYDATASTRUCT] that [lp] points to; it is looked at only
    when [msg] is [WM_COPYDATA]. *)
Definition WndProc (ids : MsgIds) (g : Globals) (hwnd msg wp lp : Z)
    (cds : COPYDATASTRUCT) : Globals * list Effect * Outcome :=
  if msg =? WM_COPYDATA then
    (* 1. Primary: id+label packets (dwData==1) *)
    if (dwData cds =? 1) && (sizeof_UINT + 1 <=? cbData cds) then
      let buf    := lpData cds in
      let id     := read_UINT buf in
      let strBuf := drop (Z.to_nat sizeof_UINT) buf in
      let maxLen := Z.to_nat (cbData cds - sizeof_UINT) in
      let len    := strnlen strBuf maxLen in
      let label  := std_string strBuf len in
      if id =? 0 then
        let g1 := set_currentRomName label g in
        (g1,
         (pushStringToJS g1 "__GAME_NAME__" label
            ++ pushToJS g1 "__GAME_NAME__" 0)%list,
         Returned TRUE)
      else
        let g1 := set_idToName (<[id := label]> (g_idToName g)) g in
        (g1,
         (pushLabelToJS g1 ("id_" +:+ to_string id) label
            ++ pushToJS g1 ("id_" +:+ to_string id) 0)%list,
         Returned TRUE)
    (* 2. Fallback: key=value updates *)
    else if 3 <? cbData cds then
      let payload := std_string (lpData cds) (Z.to_nat (cbData cds)) in
      match find payload "=" with
      | Some eq =>
          let key := substr 0 eq payload in
          match stoi (substr_from (S eq) payload) with
          | inl e => (g, [], Thrown e)
          | inr v => (g, pushToJS g key v, Returned TRUE)
          end
      | None => (g, [], Returned TRUE)
      end
    else (g, [], Returned TRUE)
  else if msg =? WM_MAME_START ids then
    let g1 := set_mameHWND wp g in
    let me := hwnd in
    let g2 := set_idToName ∅ g1 in
    (g2,
     (pushToJS g2 "__MAME_START__" 1
        ++ [ PostMessage HWND_BROADCAST  (WM_MAME_REG ids) me 0;
             PostMessage (g_mameHWND g2) (WM_MAME_REG ids) me 0;
             PostMessage HWND_BROADCAST  (WM_MAME_GET_ID ids) me 0;
             PostMessage (g_mameHWND g2) (WM_MAME_GET_ID ids) me 0 ])%list,
     Returned 0)
  else if msg =? WM_MAME_REGISTER ids then
    let id := to_UINT lp in
    (g,
     [ PostMessage HWND_BROADCAST (WM_MAME_GET_ID ids) hwnd id;
       PostMessage (g_mameHWND g) (WM_MAME_GET_ID ids) hwnd id ],
     Returned 0)
  else if msg =? WM_MAME_UPDATE ids then
    let id  := to_UINT wp in
    let val := to_int lp in
    let ask :=
      if negb (id =? 0) && negb (0 <? count (g_idToName g) id)
         && negb (g_mameHWND g =? 0)
      then [ PostMessage HWND_BROADCAST (WM_MAME_GET_ID ids) hwnd id;
             PostMessage (g_mameHWND g) (WM_MAME_GET_ID ids) hwnd id ]
      else [] in
    let keyStr := if id =? 0 then "__GAME_NAME__" else "id_" +:+ to_string id in
    (g, (ask ++ pushToJS g keyStr val)%list, Returned 0)
  else if msg =? WM_MAME_UNREG ids then
    (set_idToName (delete (to_UINT lp) (g_idToName g)) g, [], Returned 0)
  else if msg =? WM_MAME_STOP ids then
    (g, pushToJS g "__MAME_STOP__" 0, Returned 0)
  else (g, [], Defaulted).

(** ** The message loop *)

(** A retrieved [MSG], with the structure its [lParam] points to. *)
Record MSG : Type := {
  MSG_hwnd     : Z;
  MSG_message  : Z;
  MSG_wParam   : Z;
  MSG_lParam   : Z;
  MSG_copydata : COPYDATASTRUCT
}.

Definition no_copydata : COPYDATASTRUCT :=
  {| dwData := 0; cbData := 0; lpData := [] |}.

(** The window procedure applied to a retrieved message: what
    [DispatchMessage] does for a posted message, and [GetMessage] itself
    for a sent one such as [WM_COPYDATA]. *)
Definition DispatchMessage (ids : MsgIds) (g : Globals) (m : MSG)
    : Globals * list Effect * Outcome :=
  WndProc ids g (MSG_hwnd m) (MSG_message m) (MSG_wParam m) (MSG_lParam m)
    (MSG_copydata m).

(** How the listening thread stands after a run of messages. *)
Inductive LoopState : Type :=
| Waiting                 (* back in GetMessage *)
| Terminated (e : exn).   (* an exception left the thread function *)

(** The [while] loop of [messagePump] over the messages that arrive before
    [WM_QUIT].  Nothing between [WndProc] and the thread function catches
    an exception, so the first one ends the loop and the thread (and an
    exception that leaves a thread function ends the process). *)
Fixpoint dispatch_all (ids : MsgIds) (g : Globals) (ms : list MSG)
    : Globals * list Effect * LoopState :=
  match ms with
  | [] => (g, [], Waiting)
  | m :: rest =>
      match DispatchMessage ids g m with
      | (g1, tr, Thrown e) => (g1, tr, Terminated e)
      | (g1, tr, _) =>
          let '(g2, tr2, st) := dispatch_all ids g1 rest in
          (g2, (tr ++ tr2)%list, st)
      end
  end.

(** The objects delivered to JS, in order. *)
Definition js_calls (tr : list Effect) : list JsObject :=
  omap (λ e, match e with BlockingCall o => Some o | _ => None end) tr.

(** The window messages posted, in order. *)
Definition posted (tr : list Effect) : list (Z * Z * Z * Z) :=
  omap (λ e, match e with
             | PostMessage h m w l => Some (h, m, w, l)
             | _ => None
             end) tr.

(** A message posted to [HWND_BROADCAST] is queued to every top-level window,
    the poster's own hidden window included; so is one posted to the window
    itself.  These are the messages of [tr] that come back to [hwnd]. *)
Definition loopback (hwnd : Z) (tr : list Effect) : list MSG :=
  omap (λ e, match e with
             | PostMessage h m w l =>
                 if (h =? HWND_BROADCAST) || (h =? hwnd)
                 then Some {| MSG_hwnd := hwnd; MSG_message := m;
                              MSG_wParam := w; MSG_lParam := l;
                              MSG_copydata := no_copydata |}
                 else None
             | _ => None
             end) tr.

(** ** N-API entry points *)

Inductive NapiValue : Type :=
| JsTrue          (* Napi::Boolean::New(env, true) *)
| JsNull          (* env.Null() *)
| JsUndefined.    (* env.Undefined() *)

(** [has_callback] is [info.Length() >= 1 && info[0].IsFunction()]; [tid] is
    the identifier the system gives the thread if one is started. *)
Definition StartListener (g : Globals) (has_callback : bool) (tid : Z)
    : Globals * list Effect * NapiValue :=
  if negb has_callback then
    (g, [ThrowAsJavaScriptException "Callback required"], JsNull)
  else if bool_decide (is_Some (g_msgThread g)) then
    (g, [], JsTrue)
  else
    let g1 := set_running true g in
    let g2 := set_tsfn true g1 in
    let g3 := set_msgThread (Some tid) g2 in
    (g3, [TsfnNew; ThreadStart tid], JsTrue).

(** [GetThreadId(g_msgThread.native_handle())]: a thread object that is not
    joinable has a null handle, for which [GetThreadId] answers 0.
    [Release] leaves the handle stored in [g_tsfn] as it is. *)
Definition StopListener (g : Globals) : Globals * list Effect * NapiValue :=
  let g1 := set_running false g in
  let post := [PostThreadMessage (default 0 (g_msgThread g1)) WM_QUIT 0 0] in
  let '(g2, join) :=
    match g_msgThread g1 with
    | Some t => (set_msgThread None g1, [ThreadJoin t])
    | None => (g1, [])
    end in
  let release := if g_tsfn g2 then [TsfnRelease] else [] in
  (g2, (post ++ join ++ release)%list, JsUndefined).

(** ** Protocol vocabulary *)

(** The events of the protocol as this listener renders them for JS: the
    two session-boundary events are numeric pushes on reserved keys. *)
Definition numeric_update (key : string) (value : Z) : JsObject := KeyValue key value.
Definition label_update (key label : string) : JsObject := KeyLabel key label.
Definition text_update (key text : string) : JsObject := KeyText key text.
Definition session_started : JsObject := KeyValue "__MAME_START__" 1.
Definition session_stopped : JsObject := KeyValue "__MAME_STOP__" 0.

(** The inbound control signals, as MAME sends them to the window [hwnd]. *)
Definition session_start (ids : MsgIds) (hwnd source : Z) : MSG :=
  {| MSG_hwnd := hwnd; MSG_message := WM_MAME_START ids; MSG_wParam := source;
     MSG_lParam := 0; MSG_copydata := no_copydata |}.

Definition session_stop (ids : MsgIds) (hwnd source : Z) : MSG :=
  {| MSG_hwnd := hwnd; MSG_message := WM_MAME_STOP ids; MSG_wParam := source;
     MSG_lParam := 0; MSG_copydata := no_copydata |}.

Definition update (ids : MsgIds) (hwnd id value : Z) : MSG :=
  {| MSG_hwnd := hwnd; MSG_message := WM_MAME_UPDATE ids; MSG_wParam := id;
     MSG_lParam := value; MSG_copydata := no_copydata |}.

Definition unregister (ids : MsgIds) (hwnd source id : Z) : MSG :=
  {| MSG_hwnd := hwnd; MSG_message := WM_MAME_UNREG ids; MSG_wParam := source;
     MSG_lParam := id; MSG_copydata := no_copydata |}.

(** An inbound data payload: [lp] is the address of the structure. *)
Definition copydata (hwnd source lp : Z) (cds : COPYDATASTRUCT) : MSG :=
  {| MSG_hwnd := hwnd; MSG_message := WM_COPYDATA; MSG_wParam := source;
     MSG_lParam := lp; MSG_copydata := cds |}.

(** The sender's side of a label record.  The source holds no encoder (MAME
    is the sender); this is the layout the primary branch of [WndProc]
    reads: the identifier as four little-endian bytes, then the bytes of
    the label. *)
Definition byte_of_Z (z : Z) : byte :=
  default x00 (Byte.of_N (Z.to_N (Z.land z 255))).

Definition le32 (n : Z) : list byte :=
  [ byte_of_Z n; byte_of_Z (Z.shiftr n 8);
    byte_of_Z (Z.shiftr n 16); byte_of_Z (Z.shiftr n 24) ].

Definition encode_label_record (id : Z) (label : string) : list byte :=
  (le32 id ++ list_byte_of_string label)%list.

(** A payload whose declared length is [n], in memory holding [mem]. *)
Definition payload (tag : Z) (n : nat) (mem : list byte) : COPYDATASTRUCT :=
  {| dwData := tag; cbData := Z.of_nat n; lpData := mem |}.

(** The Binding Cache operation [get]. *)
Definition get (g : Globals) (id : Z) : option string := g_idToName g !! id.

(** Modelled from the spec: the two states of the Protocol State Machine,
    which the source does not name.  [Idle] is "no active source", that is a
    null [g_mameHWND]; [Active] is "source registered". *)
Inductive PsmState : Type := Idle | Active.

Definition psm_state (g : Globals) : PsmState :=
  if g_mameHWND g =? 0 then Idle else Active.

(** Which inbound messages are a label record for [id], an unregister of
    [id], a session-start. *)
Definition is_label_record_for (id : Z) (m : MSG) : bool :=
  (MSG_message m =? WM_COPYDATA)
  && (dwData (MSG_copydata m) =? 1)
  && (sizeof_UINT + 1 <=? cbData (MSG_copydata m))
  && (read_UINT (lpData (MSG_copydata m)) =? id).

Definition is_unregister_for (ids : MsgIds) (id : Z) (m : MSG) : bool :=
  (MSG_message m =? WM_MAME_UNREG ids) && (to_UINT (MSG_lParam m) =? id).

Definition is_session_start (ids : MsgIds) (m : MSG) : bool :=
  MSG_message m =? WM_MAME_START ids.

(** The states the process can be in: the loader's, then any interleaving of
    window-procedure calls and N-API calls. *)
Inductive reachable (ids : MsgIds) : Globals → Prop :=
| reach_initial : reachable ids initial
| reach_message g m :
    reachable ids g → reachable ids (DispatchMessage ids g m).1.1
| reach_start g has_callback tid :
    reachable ids g → reachable ids (StartListener g has_callback tid).1.1
| reach_stop g :
    reachable ids g → reachable ids (StopListener g).1.1.

(** ** Sample inputs and derived notions *)

(** A concrete resolution of the message names, as a system would hand
    out: distinct numbers in the registered-message range. *)
Definition sample_RegisterWindowMessageA (name : string) : Z :=
  if String.eqb name "MAMEOutputStart" then 49152
  else if String.eqb name "MAMEOutputStop" then 49153
  else if String.eqb name "MAMEOutputRegister" then 49154
  else if String.eqb name "MAMEOutputUpdateState" then 49155
  else if String.eqb name "MAMEOutputGetIDString" then 49156
  else if String.eqb name "MAMEOutputUnregister" then 49157
  else 0.

Definition sample_ids : MsgIds := messagePump_resolve sample_RegisterWindowMessageA.

(** A running listener with a callback bound and nothing learnt yet. *)
Definition listening : Globals := (StartListener initial true 4242).1.1.

(** No NUL byte inside the string. *)
Definition nul_free (s : string) : bool :=
  forallb (λ b, negb (Byte.eqb b x00)) (list_byte_of_string s).

(** What processing a label record for a non-zero identifier amounts to. *)
Definition label_record_processed (g : Globals) (id : Z) (label : string)
    : Globals * list Effect * Outcome :=
  (set_idToName (<[id := label]> (g_idToName g)) g,
   (pushLabelToJS g ("id_" +:+ to_string id) label
      ++ pushToJS g ("id_" +:+ to_string id) 0)%list,
   Returned TRUE).

(** The label the primary branch reads out of a payload. *)
Definition decoded_label (cds : COPYDATASTRUCT) : string :=
  std_string (drop 4 (lpData cds))
    (strnlen (drop 4 (lpData cds)) (Z.to_nat (cbData cds - 4))).

(** A message that is neither a label record for [id], nor an unregister of
    [id], nor a session-start. *)
Definition leaves_binding (ids : MsgIds) (id : Z) (m : MSG) : bool :=
  negb (is_label_record_for id m)
  && negb (is_unregister_for ids id m)
  && negb (is_session_start ids m).

(** A key/value payload, tagged 0. *)
Definition keyvalue (hwnd source : Z) (text : string) : MSG :=
  copydata hwnd source 0
    (payload 0 (length (list_byte_of_string text)) (list_byte_of_string text)).

(** A terminated label record, tagged 1. *)
Definition label_record (hwnd source id : Z) (label : string) : MSG :=
  copydata hwnd source 0
    (payload 1 (length (encode_label_record id label ++ [x00]))
       (encode_label_record id label ++ [x00])).

(** ** The message pump *)

(** What [messagePump] and [allowMsg] do beyond the window procedure. *)
Inductive PumpEffect : Type :=
| RegisterClassA (lpszClassName : string)
| CreateWindowA (lpClassName lpWindowName : string)
| ChangeWindowMessageFilterEx (hwnd message : Z)    (* with MSGFLT_ALLOW *)
| cerr (text : string)
| InWndProc (e : Effect)
| DestroyWindow (hwnd : Z).

Definition kWndClassName : string := "MAMEHooker".

(** The one-character string "\n". *)
Definition newline : string := String (ascii_of_nat 10) EmptyString.

(** [allowMsg]; [allowed] is what [ChangeWindowMessageFilterEx] answers. *)
Definition allowMsg (allowed : bool) (hwnd msg : Z) : list PumpEffect :=
  ChangeWindowMessageFilterEx hwnd msg
  :: (if negb allowed
      then [cerr ("[listener] Failed to allow msg " +:+ to_string msg +:+ newline)]
      else []).

(** The array [allowList] of [messagePump]. *)
Definition allowList (ids : MsgIds) : list Z :=
  [ WM_COPYDATA; WM_MAME_START ids; WM_MAME_REGISTER ids;
    WM_MAME_UPDATE ids; WM_MAME_GET_ID ids; WM_MAME_UNREG ids;
    WM_MAME_STOP ids; WM_MAME_REG ids ].

(** One evaluation of the loop condition
    [g_running && GetMessage(&msg, nullptr, 0, 0)]: the value read from the
    atomic flag (another thread stores to it), then what [GetMessage]
    retrieves, [None] standing for [WM_QUIT] (the call answers 0). *)
Record Turn : Type := {
  turn_running : bool;
  turn_message : option MSG
}.

Inductive LoopEnd : Type :=
| Blocked                 (* no more input: the thread waits in GetMessage *)
| Exited                  (* the loop condition was false *)
| Escaped (e : exn).      (* an exception left the loop *)

(** The [while] loop of [messagePump]. *)
Fixpoint message_loop (ids : MsgIds) (g : Globals) (turns : list Turn)
    : Globals * list Effect * LoopEnd :=
  match turns with
  | [] => (g, [], Blocked)
  | t :: rest =>
      if negb (turn_running t) then (g, [], Exited)
      else
        match turn_message t with
        | None => (g, [], Exited)
        | Some m =>
            match DispatchMessage ids g m with
            | (g1, tr, Thrown e) => (g1, tr, Escaped e)
            | (g1, tr, _) =>
                let '(g2, tr2, fin) := message_loop ids g1 rest in
                (g2, (tr ++ tr2)%list, fin)
            end
        end
  end.

(** The statics [messagePump] owns besides those of [Globals]: the window
    handle, the function-local [classRegistered], and the message numbers. *)
Record PumpState : Type := {
  p_globals       : Globals;
  g_hwnd          : Z;
  classRegistered : bool;
  p_ids           : MsgIds
}.

(** [messagePump].  The environment supplies [RegisterWindowMessageA], the
    handle [created] that [CreateWindowA] returns (0 when it fails), the
    answers [allowed] of the message filter, and the turns of the loop.
    The window is destroyed only when the loop is left normally. *)
Definition messagePump (RegisterWindowMessageA : string → Z) (created : Z)
    (allowed : Z → bool) (turns : list Turn) (p : PumpState)
    : PumpState * list PumpEffect * LoopEnd :=
  let ids := messagePump_resolve RegisterWindowMessageA in
  let register :=
    if negb (classRegistered p) then [RegisterClassA kWndClassName] else [] in
  let create := [CreateWindowA kWndClassName "PlynkIO Listener"] in
  let allow := flat_map (λ m, allowMsg (allowed m) created m) (allowList ids) in
  let '(g1, tr, fin) := message_loop ids (p_globals p) turns in
  let before := (register ++ create ++ allow ++ map InWndProc tr)%list in
  match fin with
  | Exited =>
      ({| p_globals := g1; g_hwnd := 0; classRegistered := true; p_ids := ids |},
       (before ++ (if negb (created =? 0) then [DestroyWindow created] else []))%list,
       Exited)
  | _ =>
      ({| p_globals := g1; g_hwnd := created; classRegistered := true;
          p_ids := ids |},
       before, fin)
  end.

(** The pump's statics as the loader leaves them. *)
Definition pump_initial : PumpState :=
  {| p_globals := initial; g_hwnd := 0; classRegistered := false;
     p_ids := {| WM_MAME_START := 0; WM_MAME_STOP := 0; WM_MAME_REGISTER := 0;
                 WM_MAME_UPDATE := 0; WM_MAME_GET_ID := 0; WM_MAME_UNREG := 0;
                 WM_MAME_REG := 0 |} |}.

(** ** Further derived notions *)

(** The value of a decimal digit sequence read left to right from [acc]. *)
Fixpoint uint_val (d : Decimal.uint) (acc : Z) : Z :=
  match d with
  | Decimal.Nil => acc
  | Decimal.D0 r => uint_val r (10 * acc)
  | Decimal.D1 r => uint_val r (10 * acc + 1)
  | Decimal.D2 r => uint_val r (10 * acc + 2)
  | Decimal.D3 r => uint_val r (10 * acc + 3)
  | Decimal.D4 r => uint_val r (10 * acc + 4)
  | Decimal.D5 r => uint_val r (10 * acc + 5)
  | Decimal.D6 r => uint_val r (10 * acc + 6)
  | Decimal.D7 r => uint_val r (10 * acc + 7)
  | Decimal.D8 r => uint_val r (10 * acc + 8)
  | Decimal.D9 r => uint_val r (10 * acc + 9)
  end.

(** The string holds no ['='] . *)
Fixpoint no_equals (s : string) : bool :=
  match s with
  | EmptyString => true
  | String a r => negb (Ascii.eqb a "=") && no_equals r
  end.

(** Every character is a decimal digit. *)
Fixpoint all_digits (s : string) : bool :=
  match s with
  | EmptyString => true
  | String a r => bool_decide (is_Some (digit_val a)) && all_digits r
  end.

(** The text of a key/value payload. *)
Definition keyvalue_text (key value : string) : string :=
  key +:+ "=" +:+ value.

(** A payload holding exactly the bytes of [text] under tag [tag]. *)
Definition text_payload (tag : Z) (text : string) : COPYDATASTRUCT :=
  payload tag (length (list_byte_of_string text)) (list_byte_of_string text).

(** The key under which an identifier is pushed. *)
Definition key_of (id : Z) : string :=
  if id =? 0 then "__GAME_NAME__" else "id_" +:+ to_string id.

(** Dual-path delivery: each request goes to the broadcast address and then
    to [source], with the listener's own window as [wParam]. *)
Definition dual_path (hwnd source : Z) (requests : list (Z * Z))
    : list (Z * Z * Z * Z) :=
  flat_map (λ r, [ (HWND_BROADCAST, r.1, hwnd, r.2); (source, r.1, hwnd, r.2) ])
    requests.

(** The values of the numeric pushes among the JS calls. *)
Definition pushed_values (tr : list Effect) : list Z :=
  omap (λ o, match o with KeyValue _ v => Some v | _ => None end) (js_calls tr).

(** The decimal text of a signed value, as a sender writes it with
    [std::to_string(int)]: a minus sign for a negative number, then the
    digits. *)
Definition render_int (v : Z) : string :=
  if v <? 0 then "-" +:+ to_string (- v) else to_string v.

(** The window classes registered in a pump trace, in order. *)
Definition registrations (tr : list PumpEffect) : list string :=
  omap (λ e, match e with RegisterClassA n => Some n | _ => None end) tr.

(** The windows destroyed in a pump trace, in order. *)
Definition destroyed (tr : list PumpEffect) : list Z :=
  omap (λ e, match e with DestroyWindow h => Some h | _ => None end) tr.

(** A turn of the loop with the flag set and message [m] retrieved; the turn
    that retrieves [WM_QUIT]; the turn that finds the flag cleared. *)
Definition retrieved (m : MSG) : Turn :=
  {| turn_running := true; turn_message := Some m |}.
Definition quit : Turn := {| turn_running := true; turn_message := None |}.
Definition flag_cleared (m : option MSG) : Turn :=
  {| turn_running := false; turn_message := m |}.

(** How the state of a run of [dispatch_all] reads as the end of the loop. *)
Definition loop_end (st : LoopState) : LoopEnd :=
  match st with Waiting => Blocked | Terminated e => Escaped e end.

(** The use count of the thread-safe function behind [g_tsfn], followed
    along a trace.  [StartListener] creates it with an initial thread count
    of 1 (the last argument of [New]); each [Release] gives one use back,
    and the function is destroyed when the count reaches 0.  A [Release]
    met with no use left acts on a function that is already destroyed,
    which the Node-API runtime does not tolerate. *)
Fixpoint tsfn_over_released (uses : nat) (tr : list Effect) : bool :=
  match tr with
  | [] => false
  | TsfnNew :: rest => tsfn_over_released 1 rest
  | TsfnRelease :: rest =>
      match uses with
      | O => true
      | S n => tsfn_over_released n rest
      end
  | _ :: rest => tsfn_over_released uses rest
  end.

Definition over_released (tr : list Effect) : bool := tsfn_over_released 0 tr.

(** * Properties *)

(** ** Dispatch *)

Lemma ids_distinct_spec ids :
  ids_distinct ids →
  WM_MAME_START ids ≠ WM_COPYDATA ∧
  WM_MAME_REGISTER ids ≠ WM_COPYDATA ∧ WM_MAME_REGISTER ids ≠ WM_MAME_START ids ∧
  WM_MAME_UPDATE ids ≠ WM_COPYDATA ∧ WM_MAME_UPDATE ids ≠ WM_MAME_START ids ∧
  WM_MAME_UPDATE ids ≠ WM_MAME_REGISTER ids ∧
  WM_MAME_UNREG ids ≠ WM_COPYDATA ∧ WM_MAME_UNREG ids ≠ WM_MAME_START ids ∧
  WM_MAME_UNREG ids ≠ WM_MAME_REGISTER ids ∧ WM_MAME_UNREG ids ≠ WM_MAME_UPDATE ids ∧
  WM_MAME_STOP ids ≠ WM_COPYDATA ∧ WM_MAME_STOP ids ≠ WM_MAME_START ids ∧
  WM_MAME_STOP ids ≠ WM_MAME_REGISTER ids ∧ WM_MAME_STOP ids ≠ WM_MAME_UPDATE ids ∧
  WM_MAME_STOP ids ≠ WM_MAME_UNREG ids.
Proof.
  unfold ids_distinct, dispatch_ids. intros H.
  repeat (apply NoDup_cons in H as [? H]).
  repeat split; set_solver.
Qed.

(** Rewrites the chain of message tests of [WndProc] once the message
    numbers are known to differ. *)
Ltac dispatch Hd :=
  let H := fresh in
  pose proof (ids_distinct_spec _ Hd) as H;
  unfold DispatchMessage, WndProc; simpl;
  repeat match goal with
         | |- context [?a =? ?b] =>
             first [ rewrite (Z.eqb_refl a)
                   | rewrite (proj2 (Z.eqb_neq a b)) by intuition congruence ]
         end;
  clear H.

Lemma WndProc_start ids g hwnd wp lp cds :
  ids_distinct ids →
  WndProc ids g hwnd (WM_MAME_START ids) wp lp cds =
  (set_idToName ∅ (set_mameHWND wp g),
   (pushToJS g "__MAME_START__" 1
      ++ [ PostMessage HWND_BROADCAST (WM_MAME_REG ids) hwnd 0;
           PostMessage wp (WM_MAME_REG ids) hwnd 0;
           PostMessage HWND_BROADCAST (WM_MAME_GET_ID ids) hwnd 0;
           PostMessage wp (WM_MAME_GET_ID ids) hwnd 0 ])%list,
   Returned 0).
Proof. intros Hd. dispatch Hd. reflexivity. Qed.

Lemma WndProc_register ids g hwnd wp lp cds :
  ids_distinct ids →
  WndProc ids g hwnd (WM_MAME_REGISTER ids) wp lp cds =
  (g,
   [ PostMessage HWND_BROADCAST (WM_MAME_GET_ID ids) hwnd (to_UINT lp);
     PostMessage (g_mameHWND g) (WM_MAME_GET_ID ids) hwnd (to_UINT lp) ],
   Returned 0).
Proof. intros Hd. dispatch Hd. reflexivity. Qed.

Lemma WndProc_update ids g hwnd wp lp cds :
  ids_distinct ids →
  WndProc ids g hwnd (WM_MAME_UPDATE ids) wp lp cds =
  (g,
   ((if negb (to_UINT wp =? 0) && negb (0 <? count (g_idToName g) (to_UINT wp))
        && negb (g_mameHWND g =? 0)
     then [ PostMessage HWND_BROADCAST (WM_MAME_GET_ID ids) hwnd (to_UINT wp);
            PostMessage (g_mameHWND g) (WM_MAME_GET_ID ids) hwnd (to_UINT wp) ]
     else [])
    ++ pushToJS g (if to_UINT wp =? 0 then "__GAME_NAME__"
                   else "id_" +:+ to_string (to_UINT wp)) (to_int lp))%list,
   Returned 0).
Proof.
  intros Hd. pose proof (ids_distinct_spec _ Hd) as H.
  unfold WndProc.
  rewrite (proj2 (Z.eqb_neq _ WM_COPYDATA)) by intuition congruence.
  rewrite (proj2 (Z.eqb_neq _ (WM_MAME_START ids))) by intuition congruence.
  rewrite (proj2 (Z.eqb_neq _ (WM_MAME_REGISTER ids))) by intuition congruence.
  rewrite Z.eqb_refl. reflexivity.
Qed.

Lemma WndProc_unreg ids g hwnd wp lp cds :
  ids_distinct ids →
  WndProc ids g hwnd (WM_MAME_UNREG ids) wp lp cds =
  (set_idToName (delete (to_UINT lp) (g_idToName g)) g, [], Returned 0).
Proof. intros Hd. dispatch Hd. reflexivity. Qed.

Lemma WndProc_stop ids g hwnd wp lp cds :
  ids_distinct ids →
  WndProc ids g hwnd (WM_MAME_STOP ids) wp lp cds =
  (g, pushToJS g "__MAME_STOP__" 0, Returned 0).
Proof. intros Hd. dispatch Hd. reflexivity. Qed.

Lemma sample_ids_distinct : ids_distinct sample_ids.
Proof. unfold ids_distinct. apply (bool_decide_unpack _). vm_compute. exact I. Defined.

(** ** Session start (C4) *)

(** C4. From any state, Idle or Active, with any cache contents, a
    session-start leaves the Binding Cache empty (size 0), records the new
    source handle, hands session-started to the JS bridge (delivered when a
    callback is bound), and posts "request all id labels"
    ([WM_MAME_GET_ID] with identifier 0) both to the broadcast address and
    to the new source handle, after the two "register for updates" posts. *)
Theorem session_start_clears_and_requests ids g hwnd source lp cds :
  ids_distinct ids →
  let '(g', tr, out) := WndProc ids g hwnd (WM_MAME_START ids) source lp cds in
  g_idToName g' = ∅ ∧ size (g_idToName g') = 0%nat ∧
  g_mameHWND g' = source ∧
  posted tr = [ (HWND_BROADCAST, WM_MAME_REG ids, hwnd, 0);
                (source, WM_MAME_REG ids, hwnd, 0);
                (HWND_BROADCAST, WM_MAME_GET_ID ids, hwnd, 0);
                (source, WM_MAME_GET_ID ids, hwnd, 0) ] ∧
  tr = (pushToJS g "__MAME_START__" 1
          ++ [ PostMessage HWND_BROADCAST (WM_MAME_REG ids) hwnd 0;
               PostMessage source (WM_MAME_REG ids) hwnd 0;
               PostMessage HWND_BROADCAST (WM_MAME_GET_ID ids) hwnd 0;
               PostMessage source (WM_MAME_GET_ID ids) hwnd 0 ])%list ∧
  (g_tsfn g = true → js_calls tr = [session_started]) ∧
  out = Returned 0.
Proof.
  intros Hd. rewrite WndProc_start by assumption.
  unfold pushToJS. destruct (g_tsfn g); cbn; repeat split; congruence.
Qed.

Lemma session_start_clears_and_requests_witness :
  let g := set_idToName {[ 7 := "Lives" ]} (set_mameHWND 1999 listening) in
  psm_state g = Active ∧ get g 7 = Some "Lives" ∧
  let '(g', tr, out) :=
    WndProc sample_ids g 1000 (WM_MAME_START sample_ids) 2000 0 no_copydata in
  g_idToName g' = ∅ ∧ g_mameHWND g' = 2000 ∧
  tr = [ BlockingCall session_started;
         PostMessage HWND_BROADCAST (WM_MAME_REG sample_ids) 1000 0;
         PostMessage 2000 (WM_MAME_REG sample_ids) 1000 0;
         PostMessage HWND_BROADCAST (WM_MAME_GET_ID sample_ids) 1000 0;
         PostMessage 2000 (WM_MAME_GET_ID sample_ids) 1000 0 ].
Proof.
  intros g. split; [reflexivity|]. split; [reflexivity|].
  pose proof (session_start_clears_and_requests sample_ids g 1000 2000 0
                no_copydata sample_ids_distinct) as H.
  destruct (WndProc sample_ids g 1000 (WM_MAME_START sample_ids) 2000 0
              no_copydata) as [[g' tr] out].
  destruct H as (Hc & _ & Hs & _ & Htr & _ & _).
  exact (conj Hc (conj Hs Htr)).
Defined.

(** ** Session stop (C8) *)

(** C8. A session-stop hands exactly one session-stopped event to the JS
    bridge (delivered when a callback is bound), posts nothing, and leaves
    every global as it was: the Binding Cache, the stored source handle and
    with it the state of the protocol machine (an Active machine stays
    Active). *)
Theorem session_stop_frame ids g hwnd wp lp cds :
  ids_distinct ids →
  let '(g', tr, out) := WndProc ids g hwnd (WM_MAME_STOP ids) wp lp cds in
  tr = pushToJS g "__MAME_STOP__" 0 ∧
  (g_tsfn g = true → tr = [BlockingCall session_stopped]) ∧
  posted tr = [] ∧
  g' = g ∧
  g_idToName g' = g_idToName g ∧
  g_mameHWND g' = g_mameHWND g ∧
  psm_state g' = psm_state g ∧
  (psm_state g = Active → psm_state g' = Active) ∧
  out = Returned 0.
Proof.
  intros Hd. rewrite WndProc_stop by assumption.
  unfold pushToJS. destruct (g_tsfn g); cbn; repeat split; congruence.
Qed.

Lemma session_stop_frame_witness :
  let g := set_mameHWND 2000 (set_idToName {[ 7 := "Lives" ]} listening) in
  psm_state g = Active ∧
  WndProc sample_ids g 1000 (WM_MAME_STOP sample_ids) 2000 0 no_copydata
  = (g, [BlockingCall session_stopped], Returned 0).
Proof.
  intros g. split; [reflexivity|].
  pose proof (session_stop_frame sample_ids g 1000 2000 0 no_copydata
                sample_ids_distinct) as H.
  destruct (WndProc sample_ids g 1000 (WM_MAME_STOP sample_ids) 2000 0
              no_copydata) as [[g' tr] out].
  destruct H as (_ & Htr & _ & Hg & _ & _ & _ & _ & Hout).
  rewrite (Htr eq_refl), Hg, Hout. reflexivity.
Defined.

(** ** Updates and late binding (C6) *)

Lemma count_None (m : gmap Z string) k : m !! k = None → count m k = 0.
Proof. unfold count. intros ->. reflexivity. Qed.

Lemma count_Some (m : gmap Z string) k v : m !! k = Some v → count m k = 1.
Proof. unfold count. intros ->. reflexivity. Qed.

(** C6. One update for a non-zero identifier that the Binding Cache does not
    hold, while a source handle is known and a callback is bound, makes this
    one window-procedure call post exactly two "request label" messages for
    that identifier (to the broadcast address, then to the source handle)
    and then deliver exactly one numeric-update on the key
    "id_<decimal identifier>"; all of it happens inside the call, which
    changes no global.  An update for identifier 0 posts nothing: it only
    pushes the value on the reserved key. *)
Theorem update_unknown_id_requests_label ids g hwnd wp lp cds :
  ids_distinct ids →
  (g_tsfn g = true →
   to_UINT wp ≠ 0 →
   get g (to_UINT wp) = None →
   g_mameHWND g ≠ 0 →
   WndProc ids g hwnd (WM_MAME_UPDATE ids) wp lp cds =
   (g,
    [ PostMessage HWND_BROADCAST (WM_MAME_GET_ID ids) hwnd (to_UINT wp);
      PostMessage (g_mameHWND g) (WM_MAME_GET_ID ids) hwnd (to_UINT wp);
      BlockingCall (numeric_update ("id_" +:+ to_string (to_UINT wp)) (to_int lp)) ],
    Returned 0)) ∧
  (to_UINT wp = 0 →
   WndProc ids g hwnd (WM_MAME_UPDATE ids) wp lp cds =
   (g, pushToJS g "__GAME_NAME__" (to_int lp), Returned 0)
   ∧ posted (WndProc ids g hwnd (WM_MAME_UPDATE ids) wp lp cds).1.2 = []).
Proof.
  intros Hd. split.
  - intros Hcb Hid Hnone Hsrc. rewrite WndProc_update by assumption.
    unfold get in Hnone. rewrite (count_None _ _ Hnone).
    rewrite (proj2 (Z.eqb_neq _ _) Hid), (proj2 (Z.eqb_neq _ _) Hsrc).
    unfold pushToJS. rewrite Hcb. reflexivity.
  - intros Hid. rewrite WndProc_update by assumption.
    rewrite Hid. cbn [Z.eqb negb andb app fst snd]. split; [reflexivity|].
    unfold pushToJS. destruct (g_tsfn g); reflexivity.
Qed.

Lemma update_unknown_id_requests_label_witness :
  let g := set_mameHWND 2000 listening in
  WndProc sample_ids g 1000 (WM_MAME_UPDATE sample_ids) 7 3 no_copydata =
  (g,
   [ PostMessage HWND_BROADCAST (WM_MAME_GET_ID sample_ids) 1000 7;
     PostMessage 2000 (WM_MAME_GET_ID sample_ids) 1000 7;
     BlockingCall (numeric_update "id_7" 3) ],
   Returned 0) ∧
  WndProc sample_ids g 1000 (WM_MAME_UPDATE sample_ids) 0 5 no_copydata =
  (g, [BlockingCall (numeric_update "__GAME_NAME__" 5)], Returned 0).
Proof.
  split.
  - refine (proj1 (update_unknown_id_requests_label sample_ids
             (set_mameHWND 2000 listening) 1000 7 3 no_copydata
             sample_ids_distinct) eq_refl _ _ _).
    + vm_compute. discriminate.
    + reflexivity.
    + vm_compute. discriminate.
  - exact (proj1 (proj2 (update_unknown_id_requests_label sample_ids
             (set_mameHWND 2000 listening) 1000 0 5 no_copydata
             sample_ids_distinct) eq_refl)).
Defined.

(** ** Label records: decoding (C7) *)

Lemma byte_at_cons_S b buf i : byte_at (b :: buf) (S i) = byte_at buf i.
Proof. reflexivity. Qed.

Lemma to_N_byte_of_Z z : Z.of_N (Byte.to_N (byte_of_Z z)) = Z.land z 255.
Proof.
  unfold byte_of_Z.
  assert (Hr : 0 ≤ Z.land z 255 < 256).
  { change 255 with (Z.ones 8). rewrite Z.land_ones by lia.
    apply Z.mod_pos_bound. lia. }
  destruct (Byte.of_N (Z.to_N (Z.land z 255))) as [b|] eqn:E.
  - apply Byte.to_of_N in E. simpl. rewrite E. lia.
  - apply Byte.of_N_None_iff in E. lia.
Qed.

Lemma testbit_255 k : 0 ≤ k → Z.testbit 255 k = (k <? 8).
Proof.
  intros Hk. change 255 with (Z.ones 8).
  rewrite Z.testbit_ones_nonneg by lia. reflexivity.
Qed.

Lemma read_UINT_le32 id rest :
  0 ≤ id ≤ UINT_MAX → read_UINT (le32 id ++ rest) = id.
Proof.
  unfold UINT_MAX. intros Hid. unfold read_UINT, le32. simpl app.
  unfold byte_at at 1. simpl nth.
  rewrite !byte_at_cons_S. unfold byte_at. simpl nth.
  rewrite !to_N_byte_of_Z.
  apply Z.bits_inj'. intros n Hn.
  rewrite !Z.lor_spec, !Z.land_spec.
  rewrite !Z.shiftl_spec by lia.
  rewrite !Z.land_spec.
  destruct (Z.lt_ge_cases n 8); [|destruct (Z.lt_ge_cases n 16);
    [|destruct (Z.lt_ge_cases n 24); [|destruct (Z.lt_ge_cases n 32)]]].
  - rewrite testbit_255 by lia.
    rewrite (Z.testbit_neg_r _ (n - 8)), (Z.testbit_neg_r _ (n - 16)),
      (Z.testbit_neg_r _ (n - 24)) by lia.
    replace (n <? 8) with true by (symmetry; apply Z.ltb_lt; lia).
    simpl. rewrite !andb_true_r, !orb_false_r. reflexivity.
  - rewrite !testbit_255 by lia. rewrite Z.shiftr_spec by lia.
    rewrite (Z.testbit_neg_r _ (n - 16)), (Z.testbit_neg_r _ (n - 24)) by lia.
    replace (n <? 8) with false by (symmetry; apply Z.ltb_ge; lia).
    replace (n - 8 <? 8) with true by (symmetry; apply Z.ltb_lt; lia).
    replace (n - 8 + 8) with n by lia.
    simpl. rewrite !andb_true_r, !andb_false_r, !orb_false_r. reflexivity.
  - rewrite !testbit_255 by lia. rewrite !Z.shiftr_spec by lia.
    rewrite (Z.testbit_neg_r _ (n - 24)) by lia.
    replace (n <? 8) with false by (symmetry; apply Z.ltb_ge; lia).
    replace (n - 8 <? 8) with false by (symmetry; apply Z.ltb_ge; lia).
    replace (n - 16 <? 8) with true by (symmetry; apply Z.ltb_lt; lia).
    replace (n - 16 + 16) with n by lia.
    simpl. rewrite !andb_true_r, !andb_false_r, !orb_false_r. reflexivity.
  - rewrite !testbit_255 by lia. rewrite !Z.shiftr_spec by lia.
    replace (n <? 8) with false by (symmetry; apply Z.ltb_ge; lia).
    replace (n - 8 <? 8) with false by (symmetry; apply Z.ltb_ge; lia).
    replace (n - 16 <? 8) with false by (symmetry; apply Z.ltb_ge; lia).
    replace (n - 24 <? 8) with true by (symmetry; apply Z.ltb_lt; lia).
    replace (n - 24 + 24) with n by lia.
    simpl. rewrite !andb_true_r, !andb_false_r. reflexivity.
  - rewrite !testbit_255 by lia. rewrite !Z.shiftr_spec by lia.
    replace (n <? 8) with false by (symmetry; apply Z.ltb_ge; lia).
    replace (n - 8 <? 8) with false by (symmetry; apply Z.ltb_ge; lia).
    replace (n - 16 <? 8) with false by (symmetry; apply Z.ltb_ge; lia).
    replace (n - 24 <? 8) with false by (symmetry; apply Z.ltb_ge; lia).
    rewrite !andb_false_r. simpl.
    rewrite <- (Z.mod_small id (2 ^ 32)) by lia.
    rewrite Z.mod_pow2_bits_high by lia. reflexivity.
Qed.

Lemma strnlen_le s n : (strnlen s n ≤ n)%nat.
Proof.
  revert s. induction n as [|n IH]; intros [|b r]; simpl; try lia.
  destruct (Byte.eqb b x00); [lia|]. specialize (IH r). lia.
Qed.

(** The scan stops at the terminator when it lies within the bound. *)
Lemma strnlen_terminated bs trailing n :
  forallb (λ b, negb (Byte.eqb b x00)) bs = true →
  (length bs ≤ n)%nat →
  strnlen (bs ++ x00 :: trailing) n = length bs.
Proof.
  revert n. induction bs as [|b bs IH]; intros n Hnf Hn; simpl in *.
  - destruct n; reflexivity.
  - apply andb_true_iff in Hnf as [Hb Hnf].
    destruct n as [|n]; [lia|]. simpl.
    apply negb_true_iff in Hb. rewrite Hb. f_equal. apply IH; [assumption|lia].
Qed.

(** Without a terminator the scan stops at the bound. *)
Lemma strnlen_bounded bs beyond :
  forallb (λ b, negb (Byte.eqb b x00)) bs = true →
  strnlen (bs ++ beyond) (length bs) = length bs.
Proof.
  induction bs as [|b bs IH]; intros Hnf; simpl in *;
    [destruct beyond; reflexivity|].
  apply andb_true_iff in Hnf as [Hb Hnf].
  apply negb_true_iff in Hb. rewrite Hb. f_equal. apply IH. assumption.
Qed.

(** The scan looks at no byte past the bound. *)
Lemma strnlen_take s n : strnlen (take n s) n = strnlen s n.
Proof.
  revert s. induction n as [|n IH]; intros [|b r]; simpl; try reflexivity.
  rewrite IH. reflexivity.
Qed.

(** The primary branch of the [WM_COPYDATA] handler, spelled out. *)
Lemma WndProc_label_record ids g hwnd wp lp cds :
  dwData cds = 1 →
  sizeof_UINT + 1 ≤ cbData cds →
  WndProc ids g hwnd WM_COPYDATA wp lp cds =
  let id := read_UINT (lpData cds) in
  let strBuf := drop 4 (lpData cds) in
  let label := std_string strBuf (strnlen strBuf (Z.to_nat (cbData cds - 4))) in
  if id =? 0 then
    (set_currentRomName label g,
     (pushStringToJS g "__GAME_NAME__" label ++ pushToJS g "__GAME_NAME__" 0)%list,
     Returned TRUE)
  else
    (set_idToName (<[id := label]> (g_idToName g)) g,
     (pushLabelToJS g ("id_" +:+ to_string id) label
        ++ pushToJS g ("id_" +:+ to_string id) 0)%list,
     Returned TRUE).
Proof.
  intros Htag Hlen. unfold WndProc. rewrite Z.eqb_refl, Htag, Z.eqb_refl.
  rewrite (proj2 (Z.leb_le _ _) Hlen). reflexivity.
Qed.

Lemma std_string_exact label rest :
  std_string (list_byte_of_string label ++ rest)
    (length (list_byte_of_string label)) = label.
Proof.
  unfold std_string. rewrite take_app_length.
  apply string_of_list_byte_of_string.
Qed.

(** What the handler reads back from an encoded record whose label is
    followed by a terminator inside the declared length. *)
Lemma decode_terminated id label trailing beyond :
  0 ≤ id ≤ UINT_MAX →
  nul_free label = true →
  let buf := (encode_label_record id label ++ x00 :: trailing)%list in
  let mem := (buf ++ beyond)%list in
  read_UINT mem = id ∧
  std_string (drop 4 mem)
    (strnlen (drop 4 mem) (Z.to_nat (Z.of_nat (length buf) - 4))) = label.
Proof.
  intros Hid Hnf buf mem. subst buf mem. unfold encode_label_record.
  rewrite <- !app_assoc. split; [apply read_UINT_le32; assumption|].
  change (drop 4 (le32 id ++ ?x)) with x.
  rewrite <- app_comm_cons.
  rewrite !length_app. change (length (le32 id)) with 4%nat. simpl length.
  rewrite strnlen_terminated; [apply std_string_exact|exact Hnf|lia].
Qed.

(** The same when the label runs up to the declared length with no
    terminator; whatever lies beyond stays unread. *)
Lemma decode_unterminated id label beyond :
  0 ≤ id ≤ UINT_MAX →
  nul_free label = true →
  let buf := encode_label_record id label in
  let mem := (buf ++ beyond)%list in
  read_UINT mem = id ∧
  std_string (drop 4 mem)
    (strnlen (drop 4 mem) (Z.to_nat (Z.of_nat (length buf) - 4))) = label.
Proof.
  intros Hid Hnf buf mem. subst buf mem. unfold encode_label_record.
  rewrite <- !app_assoc. split; [apply read_UINT_le32; assumption|].
  change (drop 4 (le32 id ++ ?x)) with x.
  rewrite !length_app. change (length (le32 id)) with 4%nat.
  replace (Z.to_nat (Z.of_nat (4 + length (list_byte_of_string label)) - 4))
    with (length (list_byte_of_string label)) by lia.
  rewrite strnlen_bounded by exact Hnf. apply std_string_exact.
Qed.

Lemma nth_take_eq (l l' : list byte) n i :
  take n l = take n l' → (i < n)%nat → nth i l x00 = nth i l' x00.
Proof.
  intros Heq Hi.
  pose proof (nth_firstn n l i x00) as H1.
  pose proof (nth_firstn n l' i x00) as H2.
  rewrite (proj2 (Nat.ltb_lt _ _) Hi) in H1, H2.
  rewrite <- H1, <- H2, Heq. reflexivity.
Qed.

Lemma std_string_strnlen_take s k :
  std_string s (strnlen s k) = std_string (take k s) (strnlen (take k s) k).
Proof.
  rewrite strnlen_take. unfold std_string. rewrite take_take.
  pose proof (strnlen_le s k).
  replace (strnlen s k `min` k)%nat with (strnlen s k) by lia. reflexivity.
Qed.

(** The handler depends on the payload memory through its first [cbData]
    bytes only. *)
Lemma WndProc_declared_length ids g hwnd msg wp lp cds cds' :
  dwData cds = dwData cds' →
  cbData cds = cbData cds' →
  take (Z.to_nat (cbData cds)) (lpData cds)
    = take (Z.to_nat (cbData cds)) (lpData cds') →
  WndProc ids g hwnd msg wp lp cds = WndProc ids g hwnd msg wp lp cds'.
Proof.
  intros Htag Hcb Hmem. unfold WndProc. rewrite <- Htag, <- Hcb.
  destruct (msg =? WM_COPYDATA); [|reflexivity].
  destruct (dwData cds =? 1) eqn:Et; simpl.
  - destruct (sizeof_UINT + 1 <=? cbData cds) eqn:El.
    + apply Z.leb_le in El. unfold sizeof_UINT in *.
      set (n := Z.to_nat (cbData cds)) in *.
      assert (Hn : (4 < n)%nat) by lia.
      assert (Hid : read_UINT (lpData cds) = read_UINT (lpData cds')).
      { unfold read_UINT, byte_at.
        rewrite !(nth_take_eq _ _ n _ Hmem) by lia. reflexivity. }
      assert (Hdrop : take (n - 4) (drop 4 (lpData cds))
                      = take (n - 4) (drop 4 (lpData cds'))).
      { rewrite !take_drop_commute.
        replace (4 + (n - 4))%nat with n by lia. rewrite Hmem. reflexivity. }
      replace (Z.to_nat (cbData cds - 4)) with (n - 4)%nat by lia.
      change (Pos.to_nat 4) with 4%nat.
      rewrite Hid.
      rewrite (std_string_strnlen_take (drop 4 (lpData cds))).
      rewrite (std_string_strnlen_take (drop 4 (lpData cds'))).
      rewrite Hdrop. reflexivity.
    + unfold std_string. rewrite Hmem. reflexivity.
  - unfold std_string. rewrite Hmem. reflexivity.
Qed.

Lemma label_record_decodes ids g hwnd wp lp id label trailing beyond :
  0 < id ≤ UINT_MAX →
  nul_free label = true →
  let buf := (encode_label_record id label ++ x00 :: trailing)%list in
  WndProc ids g hwnd WM_COPYDATA wp lp (payload 1 (length buf) (buf ++ beyond))
  = label_record_processed g id label.
Proof.
  intros Hid Hnf buf.
  destruct (decode_terminated id label trailing beyond) as [Hi Hl];
    [lia|assumption|].
  rewrite WndProc_label_record; unfold payload; cbn [dwData cbData lpData].
  - cbv zeta in Hi, Hl. fold buf in Hi, Hl. cbv zeta. rewrite Hi, Hl.
    rewrite (proj2 (Z.eqb_neq _ _)) by lia. reflexivity.
  - reflexivity.
  - subst buf. unfold encode_label_record, sizeof_UINT.
    rewrite !length_app. simpl length. lia.
Qed.

Lemma label_record_decodes_at_bound ids g hwnd wp lp id label beyond :
  0 < id ≤ UINT_MAX →
  nul_free label = true →
  label ≠ "" →
  let buf := encode_label_record id label in
  WndProc ids g hwnd WM_COPYDATA wp lp (payload 1 (length buf) (buf ++ beyond))
  = label_record_processed g id label.
Proof.
  intros Hid Hnf Hne buf.
  destruct (decode_unterminated id label beyond) as [Hi Hl];
    [lia|assumption|].
  rewrite WndProc_label_record; unfold payload; cbn [dwData cbData lpData].
  - cbv zeta in Hi, Hl. fold buf in Hi, Hl. cbv zeta. rewrite Hi, Hl.
    rewrite (proj2 (Z.eqb_neq _ _)) by lia. reflexivity.
  - reflexivity.
  - subst buf. unfold encode_label_record, sizeof_UINT.
    rewrite !length_app. simpl length.
    destruct label as [|c r]; [congruence|].
    cbv [list_byte_of_string]. simpl length. lia.
Qed.

(** C7. A buffer that encodes the label record (42, "Pac-Man") and is
    handed over with the identifier+label tag is decoded to identifier 42
    and label "Pac-Man" exactly: the binding 42 -> "Pac-Man" is stored and
    pushed on key "id_42".  This holds whatever bytes follow an embedded NUL
    terminator inside the declared length, whatever lies in memory beyond
    the declared length, and also when the label runs up to the declared
    length without a terminator.  In general the handler's result depends
    on the first [cbData] bytes of the payload only, and the label never has
    more than [cbData - 4] bytes. *)
Theorem label_record_roundtrip ids g hwnd wp lp (trailing beyond : list byte) :
  let terminated := (encode_label_record 42 "Pac-Man" ++ x00 :: trailing)%list in
  let bare := encode_label_record 42 "Pac-Man" in
  WndProc ids g hwnd WM_COPYDATA wp lp
    (payload 1 (length terminated) (terminated ++ beyond))
  = label_record_processed g 42 "Pac-Man"
  ∧ WndProc ids g hwnd WM_COPYDATA wp lp
      (payload 1 (length bare) (bare ++ beyond))
    = label_record_processed g 42 "Pac-Man"
  ∧ get (WndProc ids g hwnd WM_COPYDATA wp lp
           (payload 1 (length terminated) (terminated ++ beyond))).1.1 42
    = Some "Pac-Man"
  ∧ (∀ msg cds cds',
       dwData cds = dwData cds' →
       cbData cds = cbData cds' →
       take (Z.to_nat (cbData cds)) (lpData cds)
         = take (Z.to_nat (cbData cds)) (lpData cds') →
       WndProc ids g hwnd msg wp lp cds = WndProc ids g hwnd msg wp lp cds')
  ∧ (∀ cds,
       (strnlen (drop 4 (lpData cds)) (Z.to_nat (cbData cds - sizeof_UINT))
        ≤ Z.to_nat (cbData cds - sizeof_UINT))%nat).
Proof.
  intros terminated bare.
  assert (Hid : 0 < 42 ≤ UINT_MAX) by (unfold UINT_MAX; lia).
  assert (H1 := label_record_decodes ids g hwnd wp lp 42 "Pac-Man"
                  trailing beyond Hid eq_refl).
  assert (H2 := label_record_decodes_at_bound ids g hwnd wp lp 42 "Pac-Man"
                  beyond Hid eq_refl ltac:(discriminate)).
  cbv zeta in H1, H2. fold terminated in H1. fold bare in H2.
  repeat split.
  - exact H1.
  - exact H2.
  - rewrite H1. unfold get, label_record_processed. simpl.
    apply lookup_insert_eq.
  - intros. apply WndProc_declared_length; assumption.
  - intros. apply strnlen_le.
Qed.

Lemma label_record_roundtrip_witness :
  let g := listening in
  let terminated :=
    (encode_label_record 42 "Pac-Man" ++ [x00; x58; x59; x00; x5a])%list in
  WndProc sample_ids g 1000 WM_COPYDATA 2000 0
    (payload 1 (length terminated) (terminated ++ [x41; x42]))
  = (set_idToName {[ 42 := "Pac-Man" ]} g,
     [ BlockingCall (label_update "id_42" "Pac-Man");
       BlockingCall (numeric_update "id_42" 0) ],
     Returned TRUE)
  ∧ WndProc sample_ids g 1000 WM_COPYDATA 2000 0
      (payload 1 (length terminated) (terminated ++ [x41; x42]))
    = WndProc sample_ids g 1000 WM_COPYDATA 2000 0
        (payload 1 (length terminated) (terminated ++ [x00; x7a])).
Proof.
  split.
  - exact (proj1 (label_record_roundtrip sample_ids listening 1000 2000 0
                    [x58; x59; x00; x5a] [x41; x42])).
  - refine (proj1 (proj2 (proj2 (proj2
             (label_record_roundtrip sample_ids listening 1000 2000 0
                [x58; x59; x00; x5a] [x41; x42])))) _ _ _ _ _ _);
      reflexivity.
Defined.

(** ** Scenario: start, label, update (C2) *)

Lemma to_UINT_small n : 0 ≤ n ≤ UINT_MAX → to_UINT n = n.
Proof. unfold to_UINT, UINT_MAX. intros. apply Z.mod_small. lia. Qed.

(** C2. From any state (Idle or Active, any cache contents) with a callback
    bound, the inputs session-start, label record (7, "Lives"), update(7, 3)
    make the listener deliver exactly, in this order: session-started,
    label-update("id_7", "Lives"), numeric-update("id_7", 0),
    numeric-update("id_7", 3).  The only messages posted are the four of the
    session-start; the update asks for no label, because 7 is bound by then. *)
Theorem scenario_start_label_update ids g hwnd source lp (trailing : list byte) :
  ids_distinct ids →
  g_tsfn g = true →
  let record := (encode_label_record 7 "Lives" ++ x00 :: trailing)%list in
  let '(g', tr, st) :=
    dispatch_all ids g
      [ session_start ids hwnd source;
        copydata hwnd source lp (payload 1 (length record) record);
        update ids hwnd 7 3 ] in
  js_calls tr = [ session_started;
                  label_update "id_7" "Lives";
                  numeric_update "id_7" 0;
                  numeric_update "id_7" 3 ]
  ∧ posted tr = [ (HWND_BROADCAST, WM_MAME_REG ids, hwnd, 0);
                  (source, WM_MAME_REG ids, hwnd, 0);
                  (HWND_BROADCAST, WM_MAME_GET_ID ids, hwnd, 0);
                  (source, WM_MAME_GET_ID ids, hwnd, 0) ]
  ∧ st = Waiting
  ∧ get g' 7 = Some "Lives".
Proof.
  intros Hd Hcb record.
  assert (Hrec : ∀ g0,
    WndProc ids g0 hwnd WM_COPYDATA source lp (payload 1 (length record) record)
    = label_record_processed g0 7 "Lives").
  { intros g0.
    pose proof (label_record_decodes ids g0 hwnd source lp 7 "Lives" trailing [])
      as H.
    cbv zeta in H. fold record in H. rewrite app_nil_r in H.
    apply H; [unfold UINT_MAX; lia | reflexivity]. }
  cbn [dispatch_all]. unfold DispatchMessage at 1.
  cbn [session_start MSG_hwnd MSG_message MSG_wParam MSG_lParam MSG_copydata].
  rewrite WndProc_start by assumption. cbv iota beta.
  unfold DispatchMessage at 1.
  cbn [copydata MSG_hwnd MSG_message MSG_wParam MSG_lParam MSG_copydata].
  rewrite Hrec. unfold label_record_processed. cbv iota beta.
  unfold DispatchMessage.
  cbn [update MSG_hwnd MSG_message MSG_wParam MSG_lParam MSG_copydata].
  rewrite WndProc_update by assumption. cbv iota beta.
  rewrite to_UINT_small by (unfold UINT_MAX; lia).
  cbn [g_idToName set_idToName set_mameHWND g_mameHWND g_tsfn].
  rewrite (count_Some _ 7 "Lives") by apply lookup_insert_eq.
  unfold pushToJS, pushLabelToJS, get.
  cbn [g_idToName set_idToName set_mameHWND g_mameHWND g_tsfn].
  rewrite Hcb. cbn.
  repeat split; reflexivity.
Qed.

Lemma scenario_start_label_update_witness :
  let record := (encode_label_record 7 "Lives" ++ [x00])%list in
  let '(g', tr, st) :=
    dispatch_all sample_ids listening
      [ session_start sample_ids 1000 2000;
        copydata 1000 2000 0 (payload 1 (length record) record);
        update sample_ids 1000 7 3 ] in
  js_calls tr = [ session_started;
                  label_update "id_7" "Lives";
                  numeric_update "id_7" 0;
                  numeric_update "id_7" 3 ]
  ∧ posted tr = [ (HWND_BROADCAST, WM_MAME_REG sample_ids, 1000, 0);
                  (2000, WM_MAME_REG sample_ids, 1000, 0);
                  (HWND_BROADCAST, WM_MAME_GET_ID sample_ids, 1000, 0);
                  (2000, WM_MAME_GET_ID sample_ids, 1000, 0) ]
  ∧ st = Waiting
  ∧ get g' 7 = Some "Lives".
Proof.
  exact (scenario_start_label_update sample_ids listening 1000 2000 0 []
           sample_ids_distinct eq_refl).
Defined.

(** ** The reserved identifier 0 (C5) *)

Lemma WndProc_keeps_zero_unbound ids g hwnd msg wp lp cds :
  get g 0 = None → get (WndProc ids g hwnd msg wp lp cds).1.1 0 = None.
Proof.
  unfold get, WndProc. intros Hz.
  repeat match goal with
         | |- context [if ?b then _ else _] => destruct b eqn:?
         | |- context [match ?o with Some _ => _ | None => _ end] => destruct o eqn:?
         | |- context [match ?o with inl _ => _ | inr _ => _ end] => destruct o eqn:?
         end; cbn [fst set_idToName set_currentRomName set_mameHWND g_idToName];
    try assumption.
  - rewrite lookup_insert_ne; [assumption|].
    match goal with H : (_ =? 0) = false |- _ => apply Z.eqb_neq in H; exact H end.
  - apply lookup_empty.
  - rewrite lookup_delete. case_decide; [reflexivity|assumption].
Qed.

Lemma StartListener_cache g has_callback tid :
  g_idToName (StartListener g has_callback tid).1.1 = g_idToName g.
Proof.
  unfold StartListener. destruct has_callback; [|reflexivity]. simpl.
  case_bool_decide; reflexivity.
Qed.

Lemma StopListener_cache g :
  g_idToName (StopListener g).1.1 = g_idToName g.
Proof.
  unfold StopListener. cbn [g_msgThread set_running].
  destruct (g_msgThread g); reflexivity.
Qed.

(** C5. In every reachable state the Binding Cache has no entry for the
    reserved identifier 0.  A label record whose identifier is 0 is not
    stored there: its label becomes the current run name and is delivered
    as a text-update on the reserved key "__GAME_NAME__", followed by the
    seeding numeric-update of 0 on that same key; the cache is left as it
    was. *)
Theorem zero_never_bound ids g :
  reachable ids g →
  get g 0 = None
  ∧ ∀ hwnd wp lp cds,
      g_tsfn g = true →
      dwData cds = 1 →
      sizeof_UINT + 1 ≤ cbData cds →
      read_UINT (lpData cds) = 0 →
      ∃ label,
        WndProc ids g hwnd WM_COPYDATA wp lp cds =
        (set_currentRomName label g,
         [ BlockingCall (text_update "__GAME_NAME__" label);
           BlockingCall (numeric_update "__GAME_NAME__" 0) ],
         Returned TRUE)
        ∧ g_idToName (set_currentRomName label g) = g_idToName g
        ∧ label = std_string (drop 4 (lpData cds))
                    (strnlen (drop 4 (lpData cds)) (Z.to_nat (cbData cds - 4))).
Proof.
  intros Hr. split.
  - induction Hr as [|g m Hr IH|g cb tid Hr IH|g Hr IH].
    + apply lookup_empty.
    + apply WndProc_keeps_zero_unbound. exact IH.
    + unfold get. rewrite StartListener_cache. exact IH.
    + unfold get. rewrite StopListener_cache. exact IH.
  - intros hwnd wp lp cds Hcb Htag Hlen Hid.
    eexists. rewrite WndProc_label_record by assumption.
    cbv zeta. rewrite Hid. simpl Z.eqb. cbv iota.
    unfold pushStringToJS, pushToJS. rewrite Hcb. simpl.
    repeat split; reflexivity.
Qed.

Lemma zero_never_bound_witness :
  let record := (encode_label_record 0 "Galaga" ++ [x00])%list in
  get listening 0 = None
  ∧ WndProc sample_ids listening 1000 WM_COPYDATA 2000 0
      (payload 1 (length record) record)
    = (set_currentRomName "Galaga" listening,
       [ BlockingCall (text_update "__GAME_NAME__" "Galaga");
         BlockingCall (numeric_update "__GAME_NAME__" 0) ],
       Returned TRUE).
Proof.
  intros record.
  pose proof (zero_never_bound sample_ids listening
                (reach_start sample_ids initial true 4242
                   (reach_initial sample_ids))) as [Hz Hrec].
  split; [exact Hz|].
  destruct (Hrec 1000 2000 0 (payload 1 (length record) record)
              eq_refl eq_refl ltac:(vm_compute; discriminate) eq_refl)
    as (label & Hrun & _ & Hlabel).
  rewrite Hrun, Hlabel. reflexivity.
Defined.

(** ** Life of a binding (C3) *)

Lemma DispatchMessage_label_record ids g id m :
  is_label_record_for id m = true →
  id ≠ 0 →
  get (DispatchMessage ids g m).1.1 id = Some (decoded_label (MSG_copydata m)).
Proof.
  unfold is_label_record_for, DispatchMessage. intros Hm Hid.
  apply andb_true_iff in Hm as [Hm Hr]. apply andb_true_iff in Hm as [Hm Hl].
  apply andb_true_iff in Hm as [Hm Ht].
  apply Z.eqb_eq in Hm, Ht, Hr. apply Z.leb_le in Hl.
  rewrite Hm, WndProc_label_record by assumption.
  cbv zeta. rewrite Hr, (proj2 (Z.eqb_neq _ _) Hid).
  unfold get. cbn [fst set_idToName g_idToName]. apply lookup_insert_eq.
Qed.

Lemma DispatchMessage_preserves_binding ids g id L m :
  get g id = Some L →
  leaves_binding ids id m = true →
  get (DispatchMessage ids g m).1.1 id = Some L.
Proof.
  destruct m as [h msg wp lp cds].
  unfold leaves_binding, is_label_record_for, is_unregister_for,
    is_session_start, DispatchMessage, WndProc, get.
  cbn [MSG_hwnd MSG_message MSG_wParam MSG_lParam MSG_copydata].
  intros Hg.
  repeat (match goal with
          | |- context [if ?b then _ else _] => destruct b eqn:?
          | |- context [match ?o with Some _ => _ | None => _ end] => destruct o eqn:?
          | |- context [match ?o with inl _ => _ | inr _ => _ end] => destruct o eqn:?
          end; cbn [andb negb]);
    cbn [fst set_idToName set_currentRomName set_mameHWND g_idToName];
    intros Hq; rewrite ?andb_true_r, ?andb_false_r in Hq;
    try discriminate Hq; try assumption.
  - rewrite lookup_insert_ne; [assumption|].
    repeat (apply andb_true_iff in Hq as [Hq _]).
    apply negb_true_iff, Z.eqb_neq in Hq. exact Hq.
  - rewrite lookup_delete_ne; [assumption|].
    repeat (apply andb_true_iff in Hq as [Hq _]).
    apply negb_true_iff, Z.eqb_neq in Hq. exact Hq.
Qed.

Lemma dispatch_all_preserves_binding ids id L ms :
  ∀ g,
    get g id = Some L →
    forallb (leaves_binding ids id) ms = true →
    get (dispatch_all ids g ms).1.1 id = Some L.
Proof.
  induction ms as [|m rest IH]; intros g Hg Hq; [exact Hg|].
  cbn [forallb] in Hq. apply andb_true_iff in Hq as [Hm Hrest].
  pose proof (DispatchMessage_preserves_binding ids g id L m Hg Hm) as Hstep.
  cbn [dispatch_all].
  destruct (DispatchMessage ids g m) as [[g1 tr] o]. cbn [fst] in Hstep.
  specialize (IH g1 Hstep Hrest).
  destruct (dispatch_all ids g1 rest) as [[g2 tr2] st]. cbn [fst] in IH.
  destruct o; assumption.
Qed.

Lemma DispatchMessage_unregister ids g id m :
  ids_distinct ids →
  is_unregister_for ids id m = true →
  get (DispatchMessage ids g m).1.1 id = None.
Proof.
  unfold is_unregister_for, DispatchMessage, get. intros Hd Hm.
  apply andb_true_iff in Hm as [Hm Hid]. apply Z.eqb_eq in Hm, Hid.
  rewrite Hm, WndProc_unreg by assumption.
  cbn [fst set_idToName g_idToName]. rewrite Hid. apply lookup_delete_eq.
Qed.

Lemma DispatchMessage_session_start ids g id m :
  ids_distinct ids →
  is_session_start ids m = true →
  get (DispatchMessage ids g m).1.1 id = None.
Proof.
  unfold is_session_start, DispatchMessage, get. intros Hd Hm.
  apply Z.eqb_eq in Hm. rewrite Hm, WndProc_start by assumption.
  cbn [fst set_idToName g_idToName]. apply lookup_empty.
Qed.

(** C3, as the code has it.  For every identifier other than 0, once a
    label record (id, L) has been processed, [get id] is L, and it stays L
    under every further message that is not a label record for the same
    identifier (which replaces L by the newer label), an unregister of that
    identifier or a session-start; right after an unregister of the
    identifier, and right after a session-start, [get id] is none. *)
Theorem binding_persists ids g id m :
  ids_distinct ids →
  is_label_record_for id m = true →
  id ≠ 0 →
  let L := decoded_label (MSG_copydata m) in
  let g1 := (DispatchMessage ids g m).1.1 in
  get g1 id = Some L
  ∧ (∀ ms, forallb (leaves_binding ids id) ms = true →
           get (dispatch_all ids g1 ms).1.1 id = Some L)
  ∧ (∀ g2 u, is_unregister_for ids id u = true →
             get (DispatchMessage ids g2 u).1.1 id = None)
  ∧ (∀ g2 s, is_session_start ids s = true →
             get (DispatchMessage ids g2 s).1.1 id = None).
Proof.
  intros Hd Hm Hid L g1.
  assert (H1 : get g1 id = Some L)
    by (apply DispatchMessage_label_record; assumption).
  repeat split.
  - exact H1.
  - intros ms Hq. apply dispatch_all_preserves_binding; assumption.
  - intros g2 u Hu. apply DispatchMessage_unregister; assumption.
  - intros g2 s Hs. apply DispatchMessage_session_start; assumption.
Qed.

Lemma binding_persists_witness :
  let lives := label_record 1000 2000 7 "Lives" in
  let g1 := (DispatchMessage sample_ids listening lives).1.1 in
  let later := [ update sample_ids 1000 7 3;
                 label_record 1000 2000 8 "Score";
                 keyvalue 1000 2000 "score=1500";
                 unregister sample_ids 1000 2000 8;
                 session_stop sample_ids 1000 2000 ] in
  get g1 7 = Some "Lives"
  ∧ get (dispatch_all sample_ids g1 later).1.1 7 = Some "Lives"
  ∧ get (DispatchMessage sample_ids (dispatch_all sample_ids g1 later).1.1
           (unregister sample_ids 1000 2000 7)).1.1 7 = None
  ∧ get (DispatchMessage sample_ids (dispatch_all sample_ids g1 later).1.1
           (session_start sample_ids 1000 2000)).1.1 7 = None.
Proof.
  intros lives g1 later.
  pose proof (binding_persists sample_ids listening 7 lives
                sample_ids_distinct eq_refl ltac:(discriminate))
    as (H1 & H2 & H3 & H4).
  exact (conj H1
           (conj (H2 later eq_refl)
              (conj (H3 _ (unregister sample_ids 1000 2000 7) eq_refl)
                 (H4 _ (session_start sample_ids 1000 2000) eq_refl)))).
Defined.

(** C3 as stated fails: a second label record for the same identifier is a
    further operation that is neither an unregister of 7 nor a
    session-start, and after it [get 7] is no longer "Lives". *)
Lemma binding_replaced_by_relabel :
  is_label_record_for 7 (label_record 1000 2000 7 "Lives") = true
  ∧ decoded_label (MSG_copydata (label_record 1000 2000 7 "Lives")) = "Lives"
  ∧ is_unregister_for sample_ids 7 (label_record 1000 2000 7 "Score") = false
  ∧ is_session_start sample_ids (label_record 1000 2000 7 "Score") = false
  ∧ get (dispatch_all sample_ids listening
           [label_record 1000 2000 7 "Lives"]).1.1 7 = Some "Lives"
  ∧ get (dispatch_all sample_ids listening
           [ label_record 1000 2000 7 "Lives";
             label_record 1000 2000 7 "Score" ]).1.1 7 = Some "Score"
  ∧ get (dispatch_all sample_ids listening
           [ label_record 1000 2000 7 "Lives";
             label_record 1000 2000 7 "Score" ]).1.1 7 ≠ Some "Lives".
Proof.
  repeat split; try reflexivity. vm_compute. discriminate.
Qed.

(** ** Key/value payloads (C1) *)

(** The fallback branch of the [WM_COPYDATA] handler, spelled out. *)
Lemma WndProc_keyvalue ids g hwnd wp lp cds eq :
  (dwData cds =? 1) && (sizeof_UINT + 1 <=? cbData cds) = false →
  3 < cbData cds →
  find (std_string (lpData cds) (Z.to_nat (cbData cds))) "=" = Some eq →
  WndProc ids g hwnd WM_COPYDATA wp lp cds =
  let text := std_string (lpData cds) (Z.to_nat (cbData cds)) in
  match stoi (substr_from (S eq) text) with
  | inl e => (g, [], Thrown e)
  | inr v => (g, pushToJS g (substr 0 eq text) v, Returned TRUE)
  end.
Proof.
  intros Hpath Hlen Hfind. unfold WndProc.
  rewrite Z.eqb_refl, Hpath, (proj2 (Z.ltb_lt _ _) Hlen), Hfind. reflexivity.
Qed.

(** A numeric suffix gives exactly one numeric-update. *)
Lemma keyvalue_numeric ids g hwnd wp lp cds eq v :
  g_tsfn g = true →
  (dwData cds =? 1) && (sizeof_UINT + 1 <=? cbData cds) = false →
  3 < cbData cds →
  find (std_string (lpData cds) (Z.to_nat (cbData cds))) "=" = Some eq →
  stoi (substr_from (S eq) (std_string (lpData cds) (Z.to_nat (cbData cds))))
    = inr v →
  WndProc ids g hwnd WM_COPYDATA wp lp cds =
  (g,
   [BlockingCall (numeric_update
      (substr 0 eq (std_string (lpData cds) (Z.to_nat (cbData cds)))) v)],
   Returned TRUE).
Proof.
  intros Hcb Hpath Hlen Hfind Hv.
  rewrite (WndProc_keyvalue _ _ _ _ _ _ eq) by assumption.
  cbv zeta. rewrite Hv. unfold pushToJS. rewrite Hcb. reflexivity.
Qed.

(** A suffix that [std::stoi] rejects makes the exception leave [WndProc]:
    nothing is delivered and no global changes. *)
Lemma keyvalue_rejected ids g hwnd wp lp cds eq e :
  (dwData cds =? 1) && (sizeof_UINT + 1 <=? cbData cds) = false →
  3 < cbData cds →
  find (std_string (lpData cds) (Z.to_nat (cbData cds))) "=" = Some eq →
  stoi (substr_from (S eq) (std_string (lpData cds) (Z.to_nat (cbData cds))))
    = inl e →
  WndProc ids g hwnd WM_COPYDATA wp lp cds = (g, [], Thrown e).
Proof.
  intros Hpath Hlen Hfind He.
  rewrite (WndProc_keyvalue _ _ _ _ _ _ eq) by assumption.
  cbv zeta. rewrite He. reflexivity.
Qed.

(** C1, what the code does.  The payload "score=1500" is delivered as the
    single event numeric-update("score", 1500).  The payload "score=abc"
    delivers no event, but it is not skipped: [std::stoi] raises
    [std::invalid_argument], no handler exists in [WndProc] or around the
    message loop, so the exception leaves the window procedure and ends the
    listening thread; no message queued behind it is processed. *)
Theorem keyvalue_parse_failure_escapes ids g hwnd source (rest : list MSG) :
  DispatchMessage ids g (keyvalue hwnd source "score=1500")
    = (g, pushToJS g "score" 1500, Returned TRUE)
  ∧ DispatchMessage ids g (keyvalue hwnd source "score=abc")
    = (g, [], Thrown invalid_argument)
  ∧ dispatch_all ids g (keyvalue hwnd source "score=abc" :: rest)
    = (g, [], Terminated invalid_argument)
  ∧ DispatchMessage ids g (keyvalue hwnd source "score=99999999999")
    = (g, [], Thrown out_of_range).
Proof.
  repeat split; reflexivity.
Qed.

(** ** One message name for two signals (C10) *)

Lemma loopback_broadcast hwnd m w l tr :
  loopback hwnd (PostMessage HWND_BROADCAST m w l :: tr)
  = {| MSG_hwnd := hwnd; MSG_message := m; MSG_wParam := w; MSG_lParam := l;
       MSG_copydata := no_copydata |} :: loopback hwnd tr.
Proof. reflexivity. Qed.

Lemma loopback_js hwnd o tr :
  loopback hwnd (BlockingCall o :: tr) = loopback hwnd tr.
Proof. reflexivity. Qed.

(** C10. [messagePump] resolves [WM_MAME_REG] (the outbound "register for
    updates") and [WM_MAME_REGISTER] (the inbound per-identifier register)
    from the one name "MAMEOutputRegister", so they are the same number and
    [WndProc] treats them alike.  Hence the first message that comes back
    to the listener's own window from the broadcasts of a session-start is
    its own "register for updates"; it is handled as register(0) and posts
    "request label" for identifier 0 to the broadcast address and to the
    source handle. *)
Theorem register_messages_coincide RegisterWindowMessageA g hwnd source lp cds :
  let ids := messagePump_resolve RegisterWindowMessageA in
  ids_distinct ids →
  WM_MAME_REG ids = WM_MAME_REGISTER ids
  ∧ (∀ g0 h wp0 lp0 cds0,
       WndProc ids g0 h (WM_MAME_REG ids) wp0 lp0 cds0
       = WndProc ids g0 h (WM_MAME_REGISTER ids) wp0 lp0 cds0)
  ∧ let '(g1, tr, _) := WndProc ids g hwnd (WM_MAME_START ids) source lp cds in
    ∃ echo later,
      loopback hwnd tr = echo :: later
      ∧ echo = {| MSG_hwnd := hwnd; MSG_message := WM_MAME_REG ids;
                  MSG_wParam := hwnd; MSG_lParam := 0;
                  MSG_copydata := no_copydata |}
      ∧ DispatchMessage ids g1 echo
        = (g1,
           [ PostMessage HWND_BROADCAST (WM_MAME_GET_ID ids) hwnd 0;
             PostMessage source (WM_MAME_GET_ID ids) hwnd 0 ],
           Returned 0).
Proof.
  intros ids Hd. split; [reflexivity|]. split; [reflexivity|].
  rewrite WndProc_start by assumption.
  eexists _, _. split; [|split; [reflexivity|]].
  - unfold pushToJS. destruct (g_tsfn g); cbn [negb app].
    + rewrite loopback_js, loopback_broadcast. reflexivity.
    + rewrite loopback_broadcast. reflexivity.
  - unfold DispatchMessage.
    cbn [MSG_hwnd MSG_message MSG_wParam MSG_lParam MSG_copydata].
    change (WM_MAME_REG ids) with (WM_MAME_REGISTER ids).
    rewrite WndProc_register by assumption. reflexivity.
Qed.

Lemma register_messages_coincide_witness :
  WM_MAME_REG sample_ids = WM_MAME_REGISTER sample_ids
  ∧ ∃ echo later,
      loopback 1000
        (WndProc sample_ids listening 1000 (WM_MAME_START sample_ids) 2000 0
           no_copydata).1.2
      = echo :: later
      ∧ MSG_message echo = WM_MAME_REGISTER sample_ids
      ∧ MSG_lParam echo = 0
      ∧ (DispatchMessage sample_ids
           (WndProc sample_ids listening 1000 (WM_MAME_START sample_ids) 2000 0
              no_copydata).1.1 echo).1.2
        = [ PostMessage HWND_BROADCAST (WM_MAME_GET_ID sample_ids) 1000 0;
            PostMessage 2000 (WM_MAME_GET_ID sample_ids) 1000 0 ].
Proof.
  pose proof (register_messages_coincide sample_RegisterWindowMessageA
                listening 1000 2000 0 no_copydata sample_ids_distinct)
    as (Heq & _ & Hecho).
  split; [exact Heq|].
  fold sample_ids in Hecho.
  destruct (WndProc sample_ids listening 1000 (WM_MAME_START sample_ids) 2000 0
              no_copydata) as [[g1 tr] out].
  destruct Hecho as (echo & later & Hloop & Hshape & Hrun).
  exists echo, later. cbn [fst snd]. rewrite Hrun.
  split; [exact Hloop|]. rewrite Hshape. repeat split.
Defined.

(** ** Stopping with nothing to join (C9) *)

(** Closes [e ∉ l] for a literal trace [l] without an effect of that kind. *)
Ltac absent :=
  let Hin := fresh in
  intros Hin;
  repeat (apply elem_of_cons in Hin as [Hin|Hin]; [discriminate Hin|]);
  exact (proj1 (elem_of_nil _) Hin).

(** C9, what the code does.  A stop on a listener that was never started
    joins nothing and releases nothing.  A second stop after start and stop
    joins nothing either, but it is not a no-op and not free of error:
    [Release] does not clear the handle in [g_tsfn], so the test
    [if (g_tsfn)] still passes and the callback is released a second time,
    although its only use was given back by the first stop.  Start followed
    by one stop is balanced; start followed by two stops releases once too
    often. *)
Theorem redundant_stop_releases_again g tid :
  g_msgThread g = None →
  StopListener initial
  = (set_running false initial, [PostThreadMessage 0 WM_QUIT 0 0], JsUndefined)
  ∧ let '(g1, tr1, _) := StartListener g true tid in
    let '(g2, tr2, _) := StopListener g1 in
    let '(g3, tr3, ret3) := StopListener g2 in
    g_msgThread g2 = None
    ∧ g_tsfn g2 = true
    ∧ tr3 = [PostThreadMessage 0 WM_QUIT 0 0; TsfnRelease]
    ∧ (∀ t, ThreadJoin t ∉ tr3)
    ∧ ret3 = JsUndefined
    ∧ g3 = g2
    ∧ over_released (tr1 ++ tr2) = false
    ∧ over_released (tr1 ++ tr2 ++ tr3) = true.
Proof.
  intros Hidle. split; [reflexivity|].
  unfold StartListener, StopListener. cbn [negb]. rewrite Hidle.
  rewrite bool_decide_eq_false_2 by (intros [? ?]; discriminate).
  cbn [g_msgThread set_msgThread set_running set_tsfn g_tsfn default app].
  repeat split. intros t. absent.
Qed.

Lemma redundant_stop_releases_again_witness :
  StopListener (StopListener listening).1.1
  = ((StopListener listening).1.1,
     [PostThreadMessage 0 WM_QUIT 0 0; TsfnRelease], JsUndefined)
  ∧ over_released
      ((StartListener initial true 4242).1.2
         ++ (StopListener listening).1.2
         ++ (StopListener (StopListener listening).1.1).1.2) = true.
Proof.
  pose proof (redundant_stop_releases_again initial 4242 eq_refl) as [_ H].
  change (StartListener initial true 4242)
    with (listening, (StartListener initial true 4242).1.2,
          (StartListener initial true 4242).2) in H.
  cbv iota beta in H.
  destruct (StopListener listening) as [[g2 tr2] r2]. cbn [fst snd] in *.
  destruct (StopListener g2) as [[g3 tr3] r3]. cbn [fst snd].
  destruct H as (_ & _ & Htr & _ & Hret & Hg & _ & Hover).
  split; [|exact Hover].
  rewrite Htr, Hret, Hg. reflexivity.
Defined.

(** * Further properties of the listener *)

(** Splits on every test of [WndProc]. *)
Ltac split_WndProc :=
  repeat (match goal with
          | |- context [if ?b then _ else _] => destruct b eqn:?
          | |- context [match ?o with Some _ => _ | None => _ end] =>
              destruct o eqn:?
          | |- context [match ?o with inl _ => _ | inr _ => _ end] =>
              destruct o eqn:?
          end; cbn [andb negb]).

(** ** What the window procedure leaves alone *)

Lemma WndProc_lifecycle ids g hwnd msg wp lp cds :
  let g' := (WndProc ids g hwnd msg wp lp cds).1.1 in
  g_msgThread g' = g_msgThread g ∧ g_running g' = g_running g
  ∧ g_tsfn g' = g_tsfn g.
Proof. unfold WndProc. split_WndProc; repeat split. Qed.

Lemma dispatch_all_step ids g m rest :
  dispatch_all ids g (m :: rest) =
  match (DispatchMessage ids g m).2 with
  | Thrown e =>
      ((DispatchMessage ids g m).1.1, (DispatchMessage ids g m).1.2, Terminated e)
  | _ =>
      ((dispatch_all ids (DispatchMessage ids g m).1.1 rest).1.1,
       ((DispatchMessage ids g m).1.2
          ++ (dispatch_all ids (DispatchMessage ids g m).1.1 rest).1.2)%list,
       (dispatch_all ids (DispatchMessage ids g m).1.1 rest).2)
  end.
Proof.
  cbn [dispatch_all]. destruct (DispatchMessage ids g m) as [[g1 tr] o].
  cbn [fst snd].
  destruct (dispatch_all ids g1 rest) as [[g2 tr2] st].
  destruct o; reflexivity.
Qed.

(** X1. No inbound message, and no sequence of them, changes the listener's
    lifecycle state: the thread object, the run flag and the callback
    handle after the messages are those before. *)
Theorem messages_keep_lifecycle ids ms :
  ∀ g,
    let g' := (dispatch_all ids g ms).1.1 in
    g_msgThread g' = g_msgThread g ∧ g_running g' = g_running g
    ∧ g_tsfn g' = g_tsfn g.
Proof.
  induction ms as [|m rest IH]; intros g; [repeat split|].
  cbv zeta. rewrite dispatch_all_step.
  pose proof (WndProc_lifecycle ids g (MSG_hwnd m) (MSG_message m)
                (MSG_wParam m) (MSG_lParam m) (MSG_copydata m)) as H.
  fold (DispatchMessage ids g m) in H. cbv zeta in H.
  destruct (DispatchMessage ids g m).2; cbn [fst snd];
    try exact H;
    specialize (IH (DispatchMessage ids g m).1.1); cbv zeta in IH;
    destruct IH as (-> & -> & ->); exact H.
Qed.

Lemma WndProc_no_callback ids g hwnd msg wp lp cds :
  g_tsfn g = false → js_calls (WndProc ids g hwnd msg wp lp cds).1.2 = [].
Proof.
  intros Hcb. unfold WndProc, pushToJS, pushLabelToJS, pushStringToJS.
  cbn [g_tsfn set_idToName set_currentRomName set_mameHWND]. rewrite Hcb.
  split_WndProc; reflexivity.
Qed.

Lemma js_calls_app tr1 tr2 : js_calls (tr1 ++ tr2) = (js_calls tr1 ++ js_calls tr2)%list.
Proof. unfold js_calls. apply omap_app. Qed.

(** X2. With no callback bound nothing is ever handed to JS: whatever the
    messages, the run delivers no event (events are dropped, not queued). *)
Theorem no_callback_no_delivery ids ms :
  ∀ g, g_tsfn g = false → js_calls (dispatch_all ids g ms).1.2 = [].
Proof.
  induction ms as [|m rest IH]; intros g Hcb; [reflexivity|].
  rewrite dispatch_all_step.
  pose proof (WndProc_no_callback ids g (MSG_hwnd m) (MSG_message m)
                (MSG_wParam m) (MSG_lParam m) (MSG_copydata m) Hcb) as Hm.
  pose proof (WndProc_lifecycle ids g (MSG_hwnd m) (MSG_message m)
                (MSG_wParam m) (MSG_lParam m) (MSG_copydata m)) as (_ & _ & Ht).
  fold (DispatchMessage ids g m) in Hm, Ht.
  destruct (DispatchMessage ids g m).2; cbn [fst snd]; try exact Hm;
    rewrite js_calls_app, Hm, IH by congruence; reflexivity.
Qed.

Lemma no_callback_no_delivery_witness :
  js_calls (dispatch_all sample_ids initial
              [ session_start sample_ids 1000 2000;
                label_record 1000 2000 7 "Lives";
                update sample_ids 1000 7 3;
                session_stop sample_ids 1000 2000 ]).1.2 = [].
Proof.
  exact (no_callback_no_delivery sample_ids
           [ session_start sample_ids 1000 2000;
             label_record 1000 2000 7 "Lives";
             update sample_ids 1000 7 3;
             session_stop sample_ids 1000 2000 ] initial eq_refl).
Defined.

(** ** Outbound requests *)

(** X3. Every message the window procedure posts follows the dual-path
    pattern: requests are "register for updates" or "request label", each
    is posted first to the broadcast address and then to the source handle
    held after the call, always with the listener's own window as sender;
    nothing else is ever posted. *)
Theorem posts_are_dual_path ids g hwnd msg wp lp cds :
  let '(g', tr, _) := WndProc ids g hwnd msg wp lp cds in
  ∃ requests,
    posted tr = dual_path hwnd (g_mameHWND g') requests
    ∧ Forall (λ r, r.1 = WM_MAME_REG ids ∨ r.1 = WM_MAME_GET_ID ids) requests.
Proof.
  unfold WndProc, pushToJS, pushLabelToJS, pushStringToJS.
  cbn [g_tsfn set_idToName set_currentRomName set_mameHWND g_mameHWND].
  split_WndProc;
    first
      [ by (exists []; split; [reflexivity|constructor])
      | by (exists [(WM_MAME_REG ids, 0); (WM_MAME_GET_ID ids, 0)];
            split; [reflexivity|repeat constructor; cbn; auto])
      | by (exists [(WM_MAME_GET_ID ids, to_UINT lp)];
            split; [reflexivity|repeat constructor; cbn; auto])
      | by (exists [(WM_MAME_GET_ID ids, to_UINT wp)];
            split; [reflexivity|repeat constructor; cbn; auto]) ].
Qed.

(** ** Values handed to JS *)

Lemma stoi_range s v : stoi s = inr v → INT_MIN ≤ v ≤ INT_MAX.
Proof.
  unfold stoi.
  destruct (match skip_space s with
            | String "-" r => (true, r)
            | String "+" r => (false, r)
            | _ => (false, skip_space s)
            end) as [neg s2].
  destruct (parse_digits s2 None) as [m|]; [|discriminate].
  destruct ((INT_MIN <=? (if neg then - m else m))
            && ((if neg then - m else m) <=? INT_MAX)) eqn:E; [|discriminate].
  intros [= <-]. apply andb_true_iff in E as [H1 H2]. lia.
Qed.

Lemma to_int_range x : INT_MIN ≤ to_int x ≤ INT_MAX.
Proof.
  unfold to_int, INT_MIN, INT_MAX.
  pose proof (Z.mod_pos_bound (x + 2 ^ 31) (2 ^ 32) ltac:(lia)). lia.
Qed.

Lemma WndProc_values_fit ids g hwnd msg wp lp cds v :
  v ∈ pushed_values (WndProc ids g hwnd msg wp lp cds).1.2 →
  INT_MIN ≤ v ≤ INT_MAX.
Proof.
  pose proof (to_int_range lp) as Hlp.
  unfold WndProc, pushToJS, pushLabelToJS, pushStringToJS.
  cbn [g_tsfn set_idToName set_currentRomName set_mameHWND g_mameHWND].
  split_WndProc; cbn; intros Hin;
    repeat (apply elem_of_cons in Hin as [->|Hin]);
    try (apply elem_of_nil in Hin; contradiction);
    try (unfold INT_MIN, INT_MAX; lia); try exact Hlp.
  all: eapply stoi_range; eassumption.
Qed.

Lemma pushed_values_app tr1 tr2 :
  pushed_values (tr1 ++ tr2) = (pushed_values tr1 ++ pushed_values tr2)%list.
Proof. unfold pushed_values. rewrite js_calls_app. apply omap_app. Qed.

(** X4. Every numeric value the listener hands to JS fits a 32-bit signed
    integer, whatever the messages: values come from [std::stoi] (which
    raises instead of returning an out-of-range number), from the [int]
    cast of [lParam], or are the constants 0 and 1. *)
Theorem pushed_values_fit_int ids ms :
  ∀ g v, v ∈ pushed_values (dispatch_all ids g ms).1.2 → INT_MIN ≤ v ≤ INT_MAX.
Proof.
  induction ms as [|m rest IH]; intros g v Hin.
  - apply elem_of_nil in Hin. contradiction.
  - rewrite dispatch_all_step in Hin.
    pose proof (WndProc_values_fit ids g (MSG_hwnd m) (MSG_message m)
                  (MSG_wParam m) (MSG_lParam m) (MSG_copydata m) v) as Hm.
    fold (DispatchMessage ids g m) in Hm.
    destruct (DispatchMessage ids g m).2; cbn [fst snd] in Hin;
      try (apply Hm; exact Hin);
      rewrite pushed_values_app in Hin; apply elem_of_app in Hin as [Hin|Hin];
      [apply Hm; exact Hin | eapply IH; exact Hin
      |apply Hm; exact Hin | eapply IH; exact Hin].
Qed.

Lemma pushed_values_fit_int_witness :
  pushed_values (dispatch_all sample_ids listening
                   [ update sample_ids 1000 7 4294967295;
                     keyvalue 1000 2000 "score=-2147483648" ]).1.2
  = [-1; -2147483648]
  ∧ INT_MIN ≤ -1 ≤ INT_MAX.
Proof.
  split; [reflexivity|].
  apply (pushed_values_fit_int sample_ids
           [ update sample_ids 1000 7 4294967295;
             keyvalue 1000 2000 "score=-2147483648" ] listening (-1)).
  exact (list_elem_of_here (-1) [-2147483648]).
Defined.

(** ** Where bindings come from and go *)

Lemma DispatchMessage_keeps_unbound ids g id m :
  get g id = None →
  is_label_record_for id m = false →
  get (DispatchMessage ids g m).1.1 id = None.
Proof.
  destruct m as [h msg wp lp cds].
  unfold is_label_record_for, DispatchMessage, WndProc, get.
  cbn [MSG_hwnd MSG_message MSG_wParam MSG_lParam MSG_copydata].
  intros Hg. split_WndProc;
    cbn [fst set_idToName set_currentRomName set_mameHWND g_idToName];
    intros Hq; try assumption.
  - rewrite lookup_insert_ne; [assumption|]. apply Z.eqb_neq. exact Hq.
  - apply lookup_empty.
  - rewrite lookup_delete. case_decide; [reflexivity|assumption].
Qed.

(** X5. A binding can only come from a label record: an identifier that is
    unbound stays unbound under every run of messages none of which is a
    label record for it, whatever else they are. *)
Theorem bindings_only_from_label_records ids id ms :
  ∀ g,
    get g id = None →
    forallb (λ m, negb (is_label_record_for id m)) ms = true →
    get (dispatch_all ids g ms).1.1 id = None.
Proof.
  induction ms as [|m rest IH]; intros g Hg Hq; [exact Hg|].
  cbn [forallb] in Hq. apply andb_true_iff in Hq as [Hm Hrest].
  apply negb_true_iff in Hm.
  pose proof (DispatchMessage_keeps_unbound ids g id m Hg Hm) as Hstep.
  rewrite dispatch_all_step.
  destruct (DispatchMessage ids g m).2; cbn [fst]; try exact Hstep;
    apply IH; assumption.
Qed.

Lemma bindings_only_from_label_records_witness :
  get (dispatch_all sample_ids listening
         [ label_record 1000 2000 7 "Lives";
           update sample_ids 1000 9 1;
           keyvalue 1000 2000 "id_9=5";
           unregister sample_ids 1000 2000 9 ]).1.1 9 = None.
Proof.
  exact (bindings_only_from_label_records sample_ids 9
           [ label_record 1000 2000 7 "Lives";
             update sample_ids 1000 9 1;
             keyvalue 1000 2000 "id_9=5";
             unregister sample_ids 1000 2000 9 ] listening eq_refl eq_refl).
Defined.

Lemma set_idToName_same g : set_idToName (g_idToName g) g = g.
Proof. destruct g. reflexivity. Qed.

(** X6. Unregistering an identifier that has no binding changes nothing and
    emits nothing; so a repeated unregister is harmless: the second one
    finds the state the first one left and keeps it. *)
Theorem unregister_unbound_is_noop ids g hwnd wp lp cds :
  ids_distinct ids →
  (get g (to_UINT lp) = None →
   WndProc ids g hwnd (WM_MAME_UNREG ids) wp lp cds = (g, [], Returned 0))
  ∧ (let g1 := (WndProc ids g hwnd (WM_MAME_UNREG ids) wp lp cds).1.1 in
     WndProc ids g1 hwnd (WM_MAME_UNREG ids) wp lp cds = (g1, [], Returned 0)).
Proof.
  intros Hd. split.
  - intros Hnone. rewrite WndProc_unreg by assumption.
    unfold get in Hnone. rewrite delete_id by assumption.
    rewrite set_idToName_same. reflexivity.
  - cbv zeta. rewrite !WndProc_unreg by assumption.
    cbn [fst set_idToName g_idToName].
    rewrite (delete_id (delete _ _)) by apply lookup_delete_eq. reflexivity.
Qed.

Lemma unregister_unbound_is_noop_witness :
  WndProc sample_ids listening 1000 (WM_MAME_UNREG sample_ids) 2000 7 no_copydata
  = (listening, [], Returned 0).
Proof.
  exact (proj1 (unregister_unbound_is_noop sample_ids listening 1000 2000 7
                  no_copydata sample_ids_distinct) eq_refl).
Defined.

(** X7. An update asks for a label only when it has to: for identifier 0,
    for an identifier that is already bound, or while no source handle is
    known, the call posts nothing, changes no global and only pushes the
    value on the identifier's key. *)
Theorem update_without_request ids g hwnd wp lp cds :
  ids_distinct ids →
  to_UINT wp = 0 ∨ is_Some (get g (to_UINT wp)) ∨ g_mameHWND g = 0 →
  WndProc ids g hwnd (WM_MAME_UPDATE ids) wp lp cds
  = (g, pushToJS g (key_of (to_UINT wp)) (to_int lp), Returned 0).
Proof.
  intros Hd Hcase. rewrite WndProc_update by assumption. unfold key_of.
  destruct Hcase as [H0|[[L HL]|Hs]].
  - rewrite H0. reflexivity.
  - unfold get in HL. rewrite (count_Some _ _ _ HL).
    rewrite andb_false_r. reflexivity.
  - rewrite Hs. rewrite andb_false_r. reflexivity.
Qed.

Lemma update_without_request_witness :
  let bound := set_mameHWND 2000 (set_idToName {[ 7 := "Lives" ]} listening) in
  WndProc sample_ids bound 1000 (WM_MAME_UPDATE sample_ids) 7 3 no_copydata
  = (bound, [BlockingCall (numeric_update "id_7" 3)], Returned 0)
  ∧ WndProc sample_ids listening 1000 (WM_MAME_UPDATE sample_ids) 9 3 no_copydata
    = (listening, [BlockingCall (numeric_update "id_9" 3)], Returned 0).
Proof.
  split.
  - exact (update_without_request sample_ids
             (set_mameHWND 2000 (set_idToName {[ 7 := "Lives" ]} listening))
             1000 7 3 no_copydata sample_ids_distinct
             ltac:(right; left; exists "Lives"; reflexivity)).
  - exact (update_without_request sample_ids listening 1000 9 3 no_copydata
             sample_ids_distinct ltac:(right; right; reflexivity)).
Defined.

(** ** Start and stop *)

(** X8. Starting is idempotent: once a start with a callback has gone
    through, a further start, whatever callback it brings, creates no
    thread and no thread-safe function, changes no global and returns
    true. *)
Theorem start_is_idempotent g tid tid' :
  let g1 := (StartListener g true tid).1.1 in
  is_Some (g_msgThread g1)
  ∧ StartListener g1 true tid' = (g1, [], JsTrue).
Proof.
  cbv zeta. unfold StartListener. cbn [negb].
  destruct (g_msgThread g) as [t|] eqn:E.
  - rewrite bool_decide_eq_true_2 by eauto. cbn [fst]. rewrite E.
    rewrite bool_decide_eq_true_2 by eauto. eauto.
  - rewrite bool_decide_eq_false_2 by (intros [? ?]; discriminate).
    cbn [fst set_msgThread g_msgThread].
    rewrite bool_decide_eq_true_2 by eauto. eauto.
Qed.

(** X9. A stop after a start undoes it and allows a restart: from a state
    without a thread, start then stop posts [WM_QUIT] to the started
    thread, joins exactly that thread and releases the callback, in this
    order, and leaves no joinable thread; a later start then creates a
    thread again. *)
Theorem start_stop_restart g tid tid' :
  g_msgThread g = None →
  let g1 := (StartListener g true tid).1.1 in
  let g2 := (StopListener g1).1.1 in
  (StartListener g true tid).1.2 = [TsfnNew; ThreadStart tid]
  ∧ StopListener g1
    = (g2, [PostThreadMessage tid WM_QUIT 0 0; ThreadJoin tid; TsfnRelease],
       JsUndefined)
  ∧ g_msgThread g2 = None ∧ g_running g2 = false
  ∧ (StartListener g2 true tid').1.2 = [TsfnNew; ThreadStart tid']
  ∧ g_msgThread (StartListener g2 true tid').1.1 = Some tid'
  ∧ g_running (StartListener g2 true tid').1.1 = true.
Proof.
  intros Hidle. cbv zeta. unfold StartListener, StopListener. cbn [negb].
  rewrite Hidle.
  rewrite bool_decide_eq_false_2 by (intros [? ?]; discriminate).
  cbn. repeat split.
Qed.

Lemma start_stop_restart_witness :
  StopListener listening
  = ((StopListener listening).1.1,
     [PostThreadMessage 4242 WM_QUIT 0 0; ThreadJoin 4242; TsfnRelease],
     JsUndefined)
  ∧ g_msgThread (StopListener listening).1.1 = None.
Proof.
  pose proof (start_stop_restart initial 4242 4243 eq_refl)
    as (_ & Hstop & Hthread & _).
  exact (conj Hstop Hthread).
Defined.

(** X10. Neither entry point touches what the protocol has learnt: the
    Binding Cache, the source handle and the current run name after
    [StartListener] or [StopListener] are those before.  In particular the
    bindings of a stopped listener are still there when it is started
    again; only a session-start clears them. *)
Theorem lifecycle_keeps_bindings g has_callback tid :
  (let g' := (StartListener g has_callback tid).1.1 in
   g_idToName g' = g_idToName g ∧ g_mameHWND g' = g_mameHWND g
   ∧ g_currentRomName g' = g_currentRomName g)
  ∧ (let g' := (StopListener g).1.1 in
     g_idToName g' = g_idToName g ∧ g_mameHWND g' = g_mameHWND g
     ∧ g_currentRomName g' = g_currentRomName g)
  ∧ (∀ id, get (StartListener (StopListener g).1.1 has_callback tid).1.1 id
           = get g id).
Proof.
  assert (Hstart : ∀ g0,
    let g' := (StartListener g0 has_callback tid).1.1 in
    g_idToName g' = g_idToName g0 ∧ g_mameHWND g' = g_mameHWND g0
    ∧ g_currentRomName g' = g_currentRomName g0).
  { intros g0. unfold StartListener. destruct has_callback; cbn [negb];
      [case_bool_decide|]; repeat split. }
  assert (Hstop :
    let g' := (StopListener g).1.1 in
    g_idToName g' = g_idToName g ∧ g_mameHWND g' = g_mameHWND g
    ∧ g_currentRomName g' = g_currentRomName g).
  { unfold StopListener. cbn [g_msgThread set_running].
    destruct (g_msgThread g); repeat split. }
  split; [apply Hstart|]. split; [exact Hstop|].
  intros id. unfold get.
  destruct (Hstart (StopListener g).1.1) as (-> & _).
  destruct Hstop as (-> & _). reflexivity.
Qed.

(** ** The echo of a session-start *)

Lemma WndProc_default ids g hwnd msg wp lp cds :
  msg ∉ dispatch_ids ids →
  WndProc ids g hwnd msg wp lp cds = (g, [], Defaulted).
Proof.
  unfold dispatch_ids. intros Hn.
  rewrite !not_elem_of_cons in Hn. destruct Hn as (H1 & H2 & H3 & H4 & H5 & H6 & _).
  unfold WndProc.
  rewrite (proj2 (Z.eqb_neq _ _) H1), (proj2 (Z.eqb_neq _ _) H2),
    (proj2 (Z.eqb_neq _ _) H3), (proj2 (Z.eqb_neq _ _) H4),
    (proj2 (Z.eqb_neq _ _) H5), (proj2 (Z.eqb_neq _ _) H6).
  reflexivity.
Qed.

Lemma loopback_post hwnd h m w l tr :
  loopback hwnd (PostMessage h m w l :: tr) =
  ((if (h =? HWND_BROADCAST) || (h =? hwnd)
    then [ {| MSG_hwnd := hwnd; MSG_message := m; MSG_wParam := w;
              MSG_lParam := l; MSG_copydata := no_copydata |} ]
    else []) ++ loopback hwnd tr)%list.
Proof.
  unfold loopback. cbn [omap list_omap].
  destruct ((h =? HWND_BROADCAST) || (h =? hwnd)); reflexivity.
Qed.

(** X12. The broadcasts of a session-start come back to the listener's own
    window, but the echo dies out: handling the echoed messages only posts
    one more dual-path "request label" for identifier 0, delivers nothing
    and changes no global; and the echo of that second round is not handled
    at all, so it posts nothing further. *)
Theorem session_start_echo_dies_out RegisterWindowMessageA g hwnd source lp cds :
  let ids := messagePump_resolve RegisterWindowMessageA in
  ids_distinct ids →
  WM_MAME_GET_ID ids ∉ dispatch_ids ids →
  source ≠ hwnd →
  source ≠ HWND_BROADCAST →
  let '(g1, tr1, _) := WndProc ids g hwnd (WM_MAME_START ids) source lp cds in
  let '(g2, tr2, st2) := dispatch_all ids g1 (loopback hwnd tr1) in
  let '(g3, tr3, st3) := dispatch_all ids g2 (loopback hwnd tr2) in
  length (loopback hwnd tr1) = 2%nat
  ∧ g2 = g1
  ∧ tr2 = [ PostMessage HWND_BROADCAST (WM_MAME_GET_ID ids) hwnd 0;
            PostMessage source (WM_MAME_GET_ID ids) hwnd 0 ]
  ∧ length (loopback hwnd tr2) = 1%nat
  ∧ g3 = g1 ∧ tr3 = [] ∧ st3 = Waiting.
Proof.
  intros ids Hd Hget Hsrc Hbc.
  assert (Hs : (source =? HWND_BROADCAST) || (source =? hwnd) = false).
  { rewrite (proj2 (Z.eqb_neq _ _) Hbc), (proj2 (Z.eqb_neq _ _) Hsrc).
    reflexivity. }
  assert (Hb : ∀ x, (HWND_BROADCAST =? HWND_BROADCAST) || x = true)
    by reflexivity.
  rewrite WndProc_start by assumption.
  assert (Hloop :
    loopback hwnd
      (pushToJS g "__MAME_START__" 1
         ++ [ PostMessage HWND_BROADCAST (WM_MAME_REG ids) hwnd 0;
              PostMessage source (WM_MAME_REG ids) hwnd 0;
              PostMessage HWND_BROADCAST (WM_MAME_GET_ID ids) hwnd 0;
              PostMessage source (WM_MAME_GET_ID ids) hwnd 0 ])
    = [ {| MSG_hwnd := hwnd; MSG_message := WM_MAME_REGISTER ids;
           MSG_wParam := hwnd; MSG_lParam := 0; MSG_copydata := no_copydata |};
        {| MSG_hwnd := hwnd; MSG_message := WM_MAME_GET_ID ids;
           MSG_wParam := hwnd; MSG_lParam := 0; MSG_copydata := no_copydata |} ]).
  { unfold pushToJS. destruct (g_tsfn g); cbn [negb app];
      rewrite ?loopback_js, !loopback_post, Hs, !Hb; reflexivity. }
  rewrite Hloop. cbn [dispatch_all]. unfold DispatchMessage at 1.
  cbn [MSG_hwnd MSG_message MSG_wParam MSG_lParam MSG_copydata].
  rewrite WndProc_register by assumption. cbv iota beta.
  unfold DispatchMessage at 1.
  cbn [MSG_hwnd MSG_message MSG_wParam MSG_lParam MSG_copydata].
  rewrite WndProc_default by assumption. cbv iota beta.
  cbn [g_mameHWND set_idToName set_mameHWND app].
  change (to_UINT 0) with 0.
  rewrite !loopback_post, Hs, !Hb. cbn [app loopback omap list_omap].
  cbn [dispatch_all]. unfold DispatchMessage.
  cbn [MSG_hwnd MSG_message MSG_wParam MSG_lParam MSG_copydata].
  rewrite WndProc_default by assumption.
  repeat split.
Qed.

Lemma session_start_echo_dies_out_witness :
  let '(g1, tr1, _) :=
    WndProc sample_ids listening 1000 (WM_MAME_START sample_ids) 2000 0
      no_copydata in
  let '(g2, tr2, st2) := dispatch_all sample_ids g1 (loopback 1000 tr1) in
  let '(g3, tr3, st3) := dispatch_all sample_ids g2 (loopback 1000 tr2) in
  g2 = g1 ∧ g3 = g1 ∧ tr3 = [].
Proof.
  pose proof (session_start_echo_dies_out sample_RegisterWindowMessageA
                listening 1000 2000 0 no_copydata sample_ids_distinct
                ltac:(apply (bool_decide_unpack _); vm_compute; exact I)
                ltac:(discriminate) ltac:(discriminate)) as H.
  fold sample_ids in H.
  destruct (WndProc sample_ids listening 1000 (WM_MAME_START sample_ids) 2000 0
              no_copydata) as [[g1 tr1] o1].
  destruct (dispatch_all sample_ids g1 (loopback 1000 tr1)) as [[g2 tr2] st2].
  destruct (dispatch_all sample_ids g2 (loopback 1000 tr2)) as [[g3 tr3] st3].
  destruct H as (_ & H2 & _ & _ & H3 & H4 & _).
  exact (conj H2 (conj H3 H4)).
Defined.

(** ** Key/value payloads in general *)

Lemma length_list_byte_of_string s :
  length (list_byte_of_string s) = String.length s.
Proof.
  unfold list_byte_of_string.
  induction s as [|c r IH]; [reflexivity|]. cbn. f_equal. exact IH.
Qed.

Lemma std_string_whole s :
  std_string (list_byte_of_string s) (length (list_byte_of_string s)) = s.
Proof.
  unfold std_string. rewrite firstn_all. apply string_of_list_byte_of_string.
Qed.

Lemma append_cons c r x : String c r +:+ x = String c (r +:+ x).
Proof. reflexivity. Qed.

Lemma find_after_key key rest :
  no_equals key = true →
  find (key +:+ String "=" rest) "=" = Some (String.length key).
Proof.
  induction key as [|c r IH]; intros Hk; [reflexivity|].
  cbn [no_equals] in Hk. apply andb_true_iff in Hk as [Hc Hr].
  apply negb_true_iff in Hc.
  rewrite append_cons. cbn [find String.length].
  rewrite Hc, (IH Hr). reflexivity.
Qed.

Lemma find_none s : no_equals s = true → find s "=" = None.
Proof.
  induction s as [|c r IH]; intros Hk; [reflexivity|].
  cbn [no_equals] in Hk. apply andb_true_iff in Hk as [Hc Hr].
  apply negb_true_iff in Hc.
  cbn [find]. rewrite Hc, (IH Hr). reflexivity.
Qed.

Lemma substr_key key rest :
  substr 0 (String.length key) (key +:+ rest) = key.
Proof.
  unfold substr. induction key as [|c r IH].
  - destruct rest; reflexivity.
  - rewrite append_cons. cbn [String.length String.substring]. f_equal. exact IH.
Qed.

Lemma substr_from_value key c rest :
  substr_from (S (String.length key)) (key +:+ String c rest) = rest.
Proof.
  induction key as [|a r IH]; [reflexivity|].
  rewrite append_cons. cbn [String.length substr_from]. exact IH.
Qed.

Lemma WndProc_keyvalue_text ids g hwnd wp lp tag key value :
  tag ≠ 1 →
  no_equals key = true →
  (3 < String.length (keyvalue_text key value))%nat →
  WndProc ids g hwnd WM_COPYDATA wp lp (text_payload tag (keyvalue_text key value))
  = match stoi value with
    | inl e => (g, [], Thrown e)
    | inr v => (g, pushToJS g key v, Returned TRUE)
    end.
Proof.
  intros Htag Hkey Hlen.
  rewrite (WndProc_keyvalue _ _ _ _ _ _ (String.length key));
    unfold text_payload, payload; cbn [dwData cbData lpData];
    rewrite ?Nat2Z.id, ?std_string_whole.
  - cbv zeta. unfold keyvalue_text.
    change ("=" +:+ value) with (String "=" value).
    rewrite substr_from_value, substr_key. reflexivity.
  - rewrite (proj2 (Z.eqb_neq _ _) Htag). reflexivity.
  - rewrite length_list_byte_of_string. lia.
  - unfold keyvalue_text. change ("=" +:+ value) with (String "=" value).
    apply find_after_key. exact Hkey.
Qed.

(** X13. A key/value payload [key=value] whose key holds no ['='] and
    whose tag is not the label tag is split at the first ['=']: the text
    before it is the key, and [std::stoi] of the text after it decides the
    outcome.  A number gives exactly one push of (key, number) and no state
    change; a rejected text makes the exception leave [WndProc]. *)
Theorem keyvalue_decodes ids g hwnd wp lp tag key value :
  tag ≠ 1 →
  no_equals key = true →
  (3 < String.length (keyvalue_text key value))%nat →
  WndProc ids g hwnd WM_COPYDATA wp lp (text_payload tag (keyvalue_text key value))
  = match stoi value with
    | inl e => (g, [], Thrown e)
    | inr v => (g, pushToJS g key v, Returned TRUE)
    end.
Proof. apply WndProc_keyvalue_text. Qed.

Lemma keyvalue_decodes_witness :
  WndProc sample_ids listening 1000 WM_COPYDATA 2000 0
    (text_payload 0 (keyvalue_text "lamp" " +7 on"))
  = (listening, [BlockingCall (numeric_update "lamp" 7)], Returned TRUE).
Proof.
  exact (keyvalue_decodes sample_ids listening 1000 2000 0 0 "lamp" " +7 on"
           ltac:(discriminate) eq_refl ltac:(vm_compute; lia)).
Defined.

(** X14. A [WM_COPYDATA] payload that is neither a label record nor a
    key/value text is acknowledged and ignored: with a tag other than 1 or
    fewer than 5 bytes, and with at most 3 bytes or no ['='] in the text,
    the call returns TRUE, pushes and posts nothing and changes no global. *)
Theorem malformed_payload_ignored ids g hwnd wp lp cds :
  dwData cds ≠ 1 ∨ cbData cds < 5 →
  cbData cds ≤ 3
  ∨ no_equals (std_string (lpData cds) (Z.to_nat (cbData cds))) = true →
  WndProc ids g hwnd WM_COPYDATA wp lp cds = (g, [], Returned TRUE).
Proof.
  intros Hshape Hbad. unfold WndProc. rewrite Z.eqb_refl.
  assert (Hl : (dwData cds =? 1) && (sizeof_UINT + 1 <=? cbData cds) = false).
  { destruct Hshape as [Ht|Hc].
    - rewrite (proj2 (Z.eqb_neq _ _) Ht). reflexivity.
    - unfold sizeof_UINT. rewrite (proj2 (Z.leb_gt _ _)) by lia.
      apply andb_false_r. }
  rewrite Hl. destruct Hbad as [Hshort|Hnoeq].
  - rewrite (proj2 (Z.ltb_ge _ _)) by lia. reflexivity.
  - destruct (3 <? cbData cds); [|reflexivity].
    rewrite (find_none _ Hnoeq). reflexivity.
Qed.

Lemma malformed_payload_ignored_witness :
  WndProc sample_ids listening 1000 WM_COPYDATA 2000 0 (text_payload 0 "a=1")
  = (listening, [], Returned TRUE)
  ∧ WndProc sample_ids listening 1000 WM_COPYDATA 2000 0
      (text_payload 1 "1500")
    = (listening, [], Returned TRUE).
Proof.
  split.
  - exact (malformed_payload_ignored sample_ids listening 1000 2000 0
             (text_payload 0 "a=1") ltac:(left; discriminate)
             ltac:(left; cbn; lia)).
  - exact (malformed_payload_ignored sample_ids listening 1000 2000 0
             (text_payload 1 "1500") ltac:(right; cbn; lia)
             ltac:(right; reflexivity)).
Defined.

(** ** Reading numbers *)

Lemma digit_is_plain c r :
  is_Some (digit_val c) →
  isspace c = false
  ∧ match String c r with
    | String "-" r' => (true, r')
    | String "+" r' => (false, r')
    | _ => (false, String c r)
    end = (false, String c r).
Proof.
  destruct c as [[] [] [] [] [] [] [] []]; intros [d Hd];
    first [ discriminate Hd | split; reflexivity ].
Qed.

(** The range test [std::stoi] applies to the value [strtol] found. *)
Lemma stoi_leading_digit c r :
  is_Some (digit_val c) →
  stoi (String c r) =
  match parse_digits (String c r) None with
  | None => inl invalid_argument
  | Some m => if (INT_MIN <=? m) && (m <=? INT_MAX) then inr m
              else inl out_of_range
  end.
Proof.
  intros Hc. destruct (digit_is_plain c r Hc) as [Hsp Hsign].
  unfold stoi. cbn [skip_space]. rewrite Hsp, Hsign. reflexivity.
Qed.

Lemma stoi_minus s :
  stoi (String "-" s) =
  match parse_digits s None with
  | None => inl invalid_argument
  | Some m => if (INT_MIN <=? - m) && (- m <=? INT_MAX) then inr (- m)
              else inl out_of_range
  end.
Proof. reflexivity. Qed.

Lemma parse_digits_app s rest :
  all_digits s = true →
  ∀ acc, parse_digits (s +:+ rest) acc = parse_digits rest (parse_digits s acc).
Proof.
  induction s as [|c r IH]; intros Hs acc; [reflexivity|].
  cbn [all_digits] in Hs. apply andb_true_iff in Hs as [Hc Hr].
  apply bool_decide_eq_true in Hc as [d Hd].
  rewrite append_cons. cbn [parse_digits]. rewrite Hd. apply IH. exact Hr.
Qed.

Lemma parse_digits_stop c r acc :
  digit_val c = None → parse_digits (String c r) acc = acc.
Proof. intros Hc. cbn [parse_digits]. rewrite Hc. reflexivity. Qed.

(** Evaluates [digit_val] on a literal character. *)
Ltac eval_digit :=
  match goal with
  | |- context [digit_val ?c] =>
      let v := eval vm_compute in (digit_val c) in
      change (digit_val c) with v
  end.

Lemma parse_uint d :
  ∀ a, parse_digits (NilEmpty.string_of_uint d) (Some a) = Some (uint_val d a).
Proof.
  induction d; intros a;
    cbn [NilEmpty.string_of_uint parse_digits uint_val default];
    try reflexivity; eval_digit; cbv iota beta; rewrite IHd;
    rewrite ?Z.add_0_r; reflexivity.
Qed.

Lemma parse_uint_fresh d :
  d ≠ Decimal.Nil →
  parse_digits (NilEmpty.string_of_uint d) None = Some (uint_val d 0).
Proof.
  destruct d; intros Hd; [congruence|..];
    cbn [NilEmpty.string_of_uint parse_digits uint_val default];
    eval_digit; cbv iota beta; rewrite parse_uint; reflexivity.
Qed.

Lemma uint_val_pos d :
  ∀ acc, uint_val d (Z.pos acc) = Z.pos (Pos.of_uint_acc d acc).
Proof.
  induction d; intros acc; cbn [uint_val Pos.of_uint_acc]; try reflexivity;
    rewrite <- IHd; f_equal; lia.
Qed.

Lemma uint_val_zero d : uint_val d 0 = Z.of_N (Pos.of_uint d).
Proof.
  induction d; cbn [uint_val Pos.of_uint Z.of_N Z.mul Z.add];
    try reflexivity; try exact IHd; apply uint_val_pos.
Qed.

Lemma to_uint_not_nil n : N.to_uint n ≠ Decimal.Nil.
Proof.
  destruct n as [|p]; [discriminate|]. apply DecimalPos.Unsigned.to_uint_nonnil.
Qed.

Lemma to_string_digits n : to_string n = NilEmpty.string_of_uint (N.to_uint (Z.to_N n)).
Proof.
  unfold to_string, NilZero.string_of_uint.
  pose proof (to_uint_not_nil (Z.to_N n)).
  destruct (N.to_uint (Z.to_N n)); [congruence|reflexivity..].
Qed.

Lemma parse_to_string n : 0 ≤ n → parse_digits (to_string n) None = Some n.
Proof.
  intros Hn. rewrite to_string_digits, parse_uint_fresh by apply to_uint_not_nil.
  rewrite uint_val_zero. change (Pos.of_uint ?d) with (N.of_uint d).
  rewrite DecimalN.Unsigned.of_to. f_equal. lia.
Qed.

Lemma all_digits_uint d : all_digits (NilEmpty.string_of_uint d) = true.
Proof.
  induction d; cbn [NilEmpty.string_of_uint all_digits]; try reflexivity;
    eval_digit; exact IHd.
Qed.

Lemma to_string_leading_digit n :
  ∃ c r, to_string n = String c r ∧ is_Some (digit_val c).
Proof.
  rewrite to_string_digits. pose proof (to_uint_not_nil (Z.to_N n)) as Hn.
  destruct (N.to_uint (Z.to_N n)); [congruence|..];
    cbn [NilEmpty.string_of_uint]; eexists _, _; (split; [reflexivity|]);
    eval_digit; eexists; reflexivity.
Qed.

Lemma stoi_to_string n : 0 ≤ n ≤ INT_MAX → stoi (to_string n) = inr n.
Proof.
  intros Hn. destruct (to_string_leading_digit n) as (c & r & Hs & Hc).
  pose proof (parse_to_string n ltac:(lia)) as Hp. rewrite Hs in *.
  rewrite stoi_leading_digit, Hp by assumption.
  unfold INT_MIN, INT_MAX in *.
  rewrite (proj2 (Z.leb_le _ _)), (proj2 (Z.leb_le _ _)) by lia. reflexivity.
Qed.

Lemma stoi_render_int v : INT_MIN ≤ v ≤ INT_MAX → stoi (render_int v) = inr v.
Proof.
  intros Hv. unfold render_int. destruct (v <? 0) eqn:E.
  - apply Z.ltb_lt in E. change ("-" +:+ ?x) with (String "-" x).
    rewrite stoi_minus, parse_to_string by lia.
    unfold INT_MIN, INT_MAX in *.
    rewrite (proj2 (Z.leb_le _ _)), (proj2 (Z.leb_le _ _)) by lia.
    f_equal. lia.
  - apply Z.ltb_ge in E. apply stoi_to_string. lia.
Qed.

(** X15. Text after the digits of a value is not an error: for a payload
    [key=<digits><junk>], where the junk starts with a non-digit, the
    outcome is the one [std::stoi] gives for the digits alone, so
    "lamp=15abc" pushes 15 on "lamp". *)
Theorem trailing_text_is_ignored ids g hwnd wp lp tag key digits c junk :
  tag ≠ 1 →
  no_equals key = true →
  all_digits digits = true →
  digits ≠ "" →
  digit_val c = None →
  (3 < String.length (keyvalue_text key (digits +:+ String c junk)))%nat →
  WndProc ids g hwnd WM_COPYDATA wp lp
    (text_payload tag (keyvalue_text key (digits +:+ String c junk)))
  = match stoi digits with
    | inl e => (g, [], Thrown e)
    | inr v => (g, pushToJS g key v, Returned TRUE)
    end.
Proof.
  intros Htag Hkey Hdig Hne Hc Hlen.
  rewrite WndProc_keyvalue_text by assumption.
  destruct digits as [|d r]; [congruence|].
  cbn [all_digits] in Hdig. apply andb_true_iff in Hdig as [Hd Hr].
  apply bool_decide_eq_true in Hd.
  rewrite append_cons, !stoi_leading_digit by assumption.
  rewrite <- append_cons.
  rewrite (parse_digits_app (String d r) (String c junk)), parse_digits_stop
    by (assumption || (cbn [all_digits]; rewrite Hr, bool_decide_eq_true_2 by assumption; reflexivity)).
  reflexivity.
Qed.

Lemma trailing_text_is_ignored_witness :
  WndProc sample_ids listening 1000 WM_COPYDATA 2000 0
    (text_payload 0 (keyvalue_text "lamp" ("15" +:+ String "a" "bc")))
  = (listening, [BlockingCall (numeric_update "lamp" 15)], Returned TRUE).
Proof.
  exact (trailing_text_is_ignored sample_ids listening 1000 2000 0 0 "lamp"
           "15" "a" "bc" ltac:(discriminate) eq_refl eq_refl
           ltac:(discriminate) eq_refl ltac:(vm_compute; lia)).
Defined.

(** X16. Round trip on the key/value path: for every key without ['=']
    and every value of the 32-bit signed range, the payload made of the
    key, ['='] and the decimal text of the value is decoded to exactly one
    push of that key with that value, with no state change. *)
Theorem keyvalue_roundtrip ids g hwnd wp lp tag key v :
  tag ≠ 1 →
  no_equals key = true →
  INT_MIN ≤ v ≤ INT_MAX →
  (3 < String.length (keyvalue_text key (render_int v)))%nat →
  WndProc ids g hwnd WM_COPYDATA wp lp
    (text_payload tag (keyvalue_text key (render_int v)))
  = (g, pushToJS g key v, Returned TRUE).
Proof.
  intros Htag Hkey Hv Hlen.
  rewrite WndProc_keyvalue_text, stoi_render_int by assumption. reflexivity.
Qed.

Lemma keyvalue_roundtrip_witness :
  WndProc sample_ids listening 1000 WM_COPYDATA 2000 0
    (text_payload 0 (keyvalue_text "score" (render_int (-2147483648))))
  = (listening, [BlockingCall (numeric_update "score" (-2147483648))],
     Returned TRUE).
Proof.
  exact (keyvalue_roundtrip sample_ids listening 1000 2000 0 0 "score"
           (-2147483648) ltac:(discriminate) eq_refl
           ltac:(unfold INT_MIN, INT_MAX; lia) ltac:(vm_compute; lia)).
Defined.

(** ** Keys *)

Lemma to_string_inj a b : 0 ≤ a → 0 ≤ b → to_string a = to_string b → a = b.
Proof.
  intros Ha Hb Heq.
  pose proof (parse_to_string a Ha) as H1. pose proof (parse_to_string b Hb) as H2.
  rewrite Heq in H1. congruence.
Qed.

Lemma to_UINT_nonneg x : 0 ≤ to_UINT x.
Proof. unfold to_UINT. apply Z.mod_pos_bound. lia. Qed.

Lemma key_of_inj a b : 0 ≤ a → 0 ≤ b → key_of a = key_of b → a = b.
Proof.
  unfold key_of. intros Ha Hb.
  destruct (Z.eqb_spec a 0) as [->|Hna], (Z.eqb_spec b 0) as [->|Hnb];
    try reflexivity; try discriminate.
  intros [= Heq]. apply to_string_inj; assumption.
Qed.

(** X17. Identifiers never share a key: two updates whose identifiers
    differ (after the cast to 32 bits) push on different keys, the key being
    "__GAME_NAME__" for identifier 0 and "id_" followed by the decimal
    identifier otherwise. *)
Theorem update_keys_are_distinct ids g hwnd wp1 lp1 wp2 lp2 cds :
  ids_distinct ids →
  g_tsfn g = true →
  to_UINT wp1 ≠ to_UINT wp2 →
  ∃ k1 k2,
    js_calls (WndProc ids g hwnd (WM_MAME_UPDATE ids) wp1 lp1 cds).1.2
    = [numeric_update k1 (to_int lp1)]
    ∧ js_calls (WndProc ids g hwnd (WM_MAME_UPDATE ids) wp2 lp2 cds).1.2
      = [numeric_update k2 (to_int lp2)]
    ∧ k1 = key_of (to_UINT wp1) ∧ k2 = key_of (to_UINT wp2)
    ∧ k1 ≠ k2.
Proof.
  intros Hd Hcb Hne. exists (key_of (to_UINT wp1)), (key_of (to_UINT wp2)).
  rewrite !WndProc_update by assumption. cbn [fst snd].
  rewrite !js_calls_app. unfold pushToJS. rewrite Hcb. cbn [negb].
  repeat split.
  - destruct (negb (to_UINT wp1 =? 0) && _ && _); reflexivity.
  - destruct (negb (to_UINT wp2 =? 0) && _ && _); reflexivity.
  - intros Heq. apply Hne. apply key_of_inj; auto using to_UINT_nonneg.
Qed.

Lemma update_keys_are_distinct_witness :
  js_calls (WndProc sample_ids listening 1000 (WM_MAME_UPDATE sample_ids)
              7 1 no_copydata).1.2 = [numeric_update "id_7" 1]
  ∧ js_calls (WndProc sample_ids listening 1000 (WM_MAME_UPDATE sample_ids)
                (4294967296 + 70) 1 no_copydata).1.2 = [numeric_update "id_70" 1].
Proof.
  destruct (update_keys_are_distinct sample_ids listening 1000 7 1
              (4294967296 + 70) 1 no_copydata sample_ids_distinct eq_refl
              ltac:(vm_compute; discriminate))
    as (k1 & k2 & H1 & H2 & -> & -> & _).
  exact (conj H1 H2).
Defined.

(** ** Label records in general *)

(** X18. Round trip on the label path, for every record: whatever the
    non-zero 32-bit identifier and the NUL-free label, the encoded record
    followed by a terminator and any trailing bytes binds the identifier to
    exactly that label and pushes it on the identifier's key; so does the
    record without terminator when the declared length ends with the
    (non-empty) label.  Memory beyond the declared length plays no part. *)
Theorem label_roundtrip ids g hwnd wp lp id label (trailing beyond : list byte) :
  0 < id ≤ UINT_MAX →
  nul_free label = true →
  (let buf := (encode_label_record id label ++ x00 :: trailing)%list in
   WndProc ids g hwnd WM_COPYDATA wp lp (payload 1 (length buf) (buf ++ beyond))
   = label_record_processed g id label)
  ∧ (label ≠ "" →
     let buf := encode_label_record id label in
     WndProc ids g hwnd WM_COPYDATA wp lp (payload 1 (length buf) (buf ++ beyond))
     = label_record_processed g id label).
Proof.
  intros Hid Hnf. split.
  - apply label_record_decodes; assumption.
  - intros Hne. apply label_record_decodes_at_bound; assumption.
Qed.

Lemma label_roundtrip_witness :
  let buf := (encode_label_record 4294967295 "Credits" ++ [x00; x21])%list in
  WndProc sample_ids listening 1000 WM_COPYDATA 2000 0
    (payload 1 (length buf) (buf ++ [x22]))
  = (set_idToName {[ 4294967295 := "Credits" ]} listening,
     [ BlockingCall (label_update "id_4294967295" "Credits");
       BlockingCall (numeric_update "id_4294967295" 0) ],
     Returned TRUE).
Proof.
  exact (proj1 (label_roundtrip sample_ids listening 1000 2000 0 4294967295
                  "Credits" [x21] [x22]
                  ltac:(unfold UINT_MAX; lia) eq_refl)).
Defined.

Lemma take_strnlen_nul_free s :
  ∀ n, forallb (λ b, negb (Byte.eqb b x00)) (take (strnlen s n) s) = true.
Proof.
  induction s as [|b r IH]; intros [|n]; try reflexivity.
  cbn [strnlen]. destruct (Byte.eqb b x00) eqn:E; [reflexivity|].
  cbn [take forallb]. rewrite E. apply IH.
Qed.

Lemma length_string_of_list_byte l :
  String.length (string_of_list_byte l) = length l.
Proof.
  rewrite <- length_list_byte_of_string, list_byte_of_string_of_list_byte.
  reflexivity.
Qed.

(** X19. Whatever bytes a label-tagged payload of at least 5 bytes holds,
    the label taken from it is clean and bounded: it contains no NUL and
    has at most [cbData - 4] bytes; this label goes to the run-name channel
    when the identifier read is 0 and into the Binding Cache otherwise. *)
Theorem decoded_label_is_bounded ids g hwnd wp lp cds :
  dwData cds = 1 →
  sizeof_UINT + 1 ≤ cbData cds →
  ∃ label,
    nul_free label = true
    ∧ (String.length label ≤ Z.to_nat (cbData cds - sizeof_UINT))%nat
    ∧ WndProc ids g hwnd WM_COPYDATA wp lp cds
      = if read_UINT (lpData cds) =? 0
        then (set_currentRomName label g,
              (pushStringToJS g "__GAME_NAME__" label
                 ++ pushToJS g "__GAME_NAME__" 0)%list,
              Returned TRUE)
        else label_record_processed g (read_UINT (lpData cds)) label.
Proof.
  intros Htag Hlen. exists (decoded_label cds). split; [|split].
  - unfold nul_free, decoded_label, std_string.
    rewrite list_byte_of_string_of_list_byte. apply take_strnlen_nul_free.
  - unfold decoded_label, std_string, sizeof_UINT.
    rewrite length_string_of_list_byte, length_take.
    pose proof (strnlen_le (drop 4 (lpData cds)) (Z.to_nat (cbData cds - 4))).
    lia.
  - rewrite WndProc_label_record by assumption. reflexivity.
Qed.

Lemma decoded_label_is_bounded_witness :
  ∃ label,
    nul_free label = true ∧ (String.length label ≤ 3)%nat
    ∧ WndProc sample_ids listening 1000 WM_COPYDATA 2000 0
        (payload 1 7 [x07; x00; x00; x00; x41; x42; x43; x44; x45])
      = label_record_processed listening 7 label.
Proof.
  destruct (decoded_label_is_bounded sample_ids listening 1000 2000 0
              (payload 1 7 [x07; x00; x00; x00; x41; x42; x43; x44; x45])
              eq_refl ltac:(vm_compute; discriminate))
    as (label & Hnf & Hlen & Hrun).
  exists label. exact (conj Hnf (conj Hlen Hrun)).
Defined.

(** ** The message pump *)

Lemma message_loop_retrieved ids ms :
  ∀ g,
    message_loop ids g (map retrieved ms) =
    let '(g', tr, st) := dispatch_all ids g ms in (g', tr, loop_end st).
Proof.
  induction ms as [|m rest IH]; intros g; [reflexivity|].
  cbn [map message_loop dispatch_all retrieved turn_running turn_message negb].
  destruct (DispatchMessage ids g m) as [[g1 tr] o].
  destruct o; try reflexivity; rewrite IH;
    destruct (dispatch_all ids g1 rest) as [[g2 tr2] st]; reflexivity.
Qed.

Lemma message_loop_stops ids ms t rest :
  turn_running t = false ∨ turn_message t = None →
  ∀ g,
    message_loop ids g (map retrieved ms ++ t :: rest) =
    let '(g', tr, st) := dispatch_all ids g ms in
    (g', tr, match st with Waiting => Exited | Terminated e => Escaped e end).
Proof.
  intros Ht. induction ms as [|m more IH]; intros g.
  - cbn [map app message_loop dispatch_all].
    destruct Ht as [->| ->]; [reflexivity|].
    destruct (turn_running t); reflexivity.
  - cbn [map app message_loop dispatch_all retrieved turn_running turn_message
         negb].
    destruct (DispatchMessage ids g m) as [[g1 tr] o].
    destruct o; try reflexivity; rewrite IH;
      destruct (dispatch_all ids g1 more) as [[g2 tr2] st];
      rewrite ?app_nil_r; reflexivity.
Qed.

(** X20. The loop of the pump processes the retrieved messages exactly as
    [dispatch_all] does, and it stops at the first turn that retrieves
    [WM_QUIT] or finds the run flag cleared: no message queued after that
    turn is dispatched. *)
Theorem message_loop_until_quit ids g ms t rest :
  message_loop ids g (map retrieved ms)
  = (let '(g', tr, st) := dispatch_all ids g ms in (g', tr, loop_end st))
  ∧ (turn_running t = false ∨ turn_message t = None →
     message_loop ids g (map retrieved ms ++ t :: rest)
     = let '(g', tr, st) := dispatch_all ids g ms in
       (g', tr, match st with Waiting => Exited | Terminated e => Escaped e end)).
Proof.
  split; [apply message_loop_retrieved|].
  intros Ht. apply message_loop_stops. exact Ht.
Qed.

Lemma message_loop_until_quit_witness :
  message_loop sample_ids listening
    [ retrieved (session_start sample_ids 1000 2000); quit;
      retrieved (update sample_ids 1000 7 3) ]
  = (set_mameHWND 2000 listening,
     [ BlockingCall session_started;
       PostMessage HWND_BROADCAST (WM_MAME_REG sample_ids) 1000 0;
       PostMessage 2000 (WM_MAME_REG sample_ids) 1000 0;
       PostMessage HWND_BROADCAST (WM_MAME_GET_ID sample_ids) 1000 0;
       PostMessage 2000 (WM_MAME_GET_ID sample_ids) 1000 0 ],
     Exited).
Proof.
  exact (proj2 (message_loop_until_quit sample_ids listening
                  [session_start sample_ids 1000 2000] quit
                  [retrieved (update sample_ids 1000 7 3)])
           (or_intror eq_refl)).
Defined.

Lemma handled_in_dispatch_ids ids g hwnd msg wp lp cds :
  (WndProc ids g hwnd msg wp lp cds).2 ≠ Defaulted → msg ∈ dispatch_ids ids.
Proof.
  intros Hh. destruct (decide (msg ∈ dispatch_ids ids)) as [Hin|Hout];
    [exact Hin|].
  rewrite WndProc_default in Hh by assumption. contradiction.
Qed.

Lemma dispatch_ids_allowed ids msg :
  msg ∈ dispatch_ids ids → msg ∈ allowList ids.
Proof.
  unfold dispatch_ids, allowList. rewrite !elem_of_cons, !elem_of_nil. tauto.
Qed.

Lemma allow_in_trace created allowed (l : list Z) msg :
  msg ∈ l →
  ChangeWindowMessageFilterEx created msg
  ∈ flat_map (λ m, allowMsg (allowed m) created m) l.
Proof.
  intros Hin. apply list_elem_of_In, in_flat_map.
  exists msg. split; [apply list_elem_of_In; exact Hin|]. left. reflexivity.
Qed.

(** X21. Every message the window procedure handles has been let through
    the message filter of the created window: whatever the registered
    numbers, a message that [WndProc] does not pass on to [DefWindowProc]
    is in the allow list that [messagePump] submits on start-up. *)
Theorem handled_messages_are_allowed RegisterWindowMessageA created allowed
    turns p g hwnd msg wp lp cds :
  let ids := messagePump_resolve RegisterWindowMessageA in
  (WndProc ids g hwnd msg wp lp cds).2 ≠ Defaulted →
  ChangeWindowMessageFilterEx created msg
  ∈ (messagePump RegisterWindowMessageA created allowed turns p).1.2.
Proof.
  intros ids Hh.
  pose proof (allow_in_trace created allowed _ _
                (dispatch_ids_allowed ids msg
                   (handled_in_dispatch_ids ids g hwnd msg wp lp cds Hh))) as Hin.
  unfold messagePump. fold ids.
  destruct (message_loop ids (p_globals p) turns) as [[g1 tr] fin].
  destruct fin; cbn [fst snd]; rewrite ?elem_of_app; auto 10.
Qed.

Lemma handled_messages_are_allowed_witness :
  ChangeWindowMessageFilterEx 1000 (WM_MAME_UPDATE sample_ids)
  ∈ (messagePump sample_RegisterWindowMessageA 1000 (λ _, true) [quit]
       pump_initial).1.2.
Proof.
  exact (handled_messages_are_allowed sample_RegisterWindowMessageA 1000
           (λ _, true) [quit] pump_initial listening 1000
           (WM_MAME_UPDATE sample_ids) 7 3 no_copydata
           ltac:(vm_compute; discriminate)).
Defined.

Lemma registrations_app tr1 tr2 :
  registrations (tr1 ++ tr2) = (registrations tr1 ++ registrations tr2)%list.
Proof. unfold registrations. apply omap_app. Qed.

Lemma destroyed_app tr1 tr2 :
  destroyed (tr1 ++ tr2) = (destroyed tr1 ++ destroyed tr2)%list.
Proof. unfold destroyed. apply omap_app. Qed.

Lemma allow_quiet created allowed (l : list Z) :
  registrations (flat_map (λ m, allowMsg (allowed m) created m) l) = []
  ∧ destroyed (flat_map (λ m, allowMsg (allowed m) created m) l) = [].
Proof.
  induction l as [|m l [IH1 IH2]]; [split; reflexivity|].
  cbn [flat_map]. rewrite registrations_app, destroyed_app, IH1, IH2.
  unfold allowMsg. destruct (allowed m); split; reflexivity.
Qed.

Lemma inner_quiet (tr : list Effect) :
  registrations (map InWndProc tr) = [] ∧ destroyed (map InWndProc tr) = [].
Proof.
  induction tr as [|e tr [IH1 IH2]]; [split; reflexivity|].
  split; [exact IH1|exact IH2].
Qed.

(** X22. The window class is registered once per process: a run of the
    pump registers "MAMEHooker" exactly when no earlier run has, it leaves
    the class marked as registered however the run ends, and a later run
    (a restart of the listener) registers nothing. *)
Theorem window_class_registered_once R1 created1 allowed1 turns1
    R2 created2 allowed2 turns2 p :
  let '(p1, tr1, _) := messagePump R1 created1 allowed1 turns1 p in
  let '(p2, tr2, _) := messagePump R2 created2 allowed2 turns2 p1 in
  registrations tr1 = (if classRegistered p then [] else [kWndClassName])
  ∧ classRegistered p1 = true
  ∧ registrations tr2 = []
  ∧ classRegistered p2 = true.
Proof.
  assert (Hrun : ∀ R created allowed turns q,
    let '(q1, tr, _) := messagePump R created allowed turns q in
    registrations tr = (if classRegistered q then [] else [kWndClassName])
    ∧ classRegistered q1 = true).
  { intros R created allowed turns q. unfold messagePump.
    destruct (message_loop (messagePump_resolve R) (p_globals q) turns)
      as [[g1 tr] fin].
    destruct (allow_quiet created allowed (allowList (messagePump_resolve R)))
      as [Ha _].
    destruct (inner_quiet tr) as [Hi _].
    destruct fin; cbn [classRegistered];
      rewrite !registrations_app, ?Ha, ?Hi;
      destruct (classRegistered q), (created =? 0); split; reflexivity. }
  pose proof (Hrun R1 created1 allowed1 turns1 p) as H1.
  destruct (messagePump R1 created1 allowed1 turns1 p) as [[p1 tr1] fin1].
  pose proof (Hrun R2 created2 allowed2 turns2 p1) as H2.
  destruct (messagePump R2 created2 allowed2 turns2 p1) as [[p2 tr2] fin2].
  destruct H1 as [H1 H1c]. destruct H2 as [H2 H2c].
  rewrite H1c in H2. auto.
Qed.


(** ** Binding and unbinding compose *)

Lemma DispatchMessage_label_state ids g id m :
  is_label_record_for id m = true →
  id ≠ 0 →
  (DispatchMessage ids g m).1.1
  = set_idToName (<[id := decoded_label (MSG_copydata m)]> (g_idToName g)) g.
Proof.
  unfold is_label_record_for, DispatchMessage. intros Hm Hid.
  apply andb_true_iff in Hm as [Hm Hr]. apply andb_true_iff in Hm as [Hm Hl].
  apply andb_true_iff in Hm as [Hm Ht].
  apply Z.eqb_eq in Hm, Ht, Hr. apply Z.leb_le in Hl.
  rewrite Hm, WndProc_label_record by assumption.
  cbv zeta. rewrite Hr, (proj2 (Z.eqb_neq _ _) Hid). reflexivity.
Qed.

Lemma DispatchMessage_unregister_state ids g id u :
  ids_distinct ids →
  is_unregister_for ids id u = true →
  (DispatchMessage ids g u).1.1 = set_idToName (delete id (g_idToName g)) g.
Proof.
  unfold is_unregister_for, DispatchMessage. intros Hd Hu.
  apply andb_true_iff in Hu as [Hu Hid]. apply Z.eqb_eq in Hu, Hid.
  rewrite Hu, WndProc_unreg by assumption. rewrite Hid. reflexivity.
Qed.

(** X24. Unregistering undoes a binding: when an identifier that was
    unbound receives a label record and is then unregistered, every global
    is back to what it was before the label record. *)
Theorem label_then_unregister_restores ids g id m u :
  ids_distinct ids →
  is_label_record_for id m = true →
  id ≠ 0 →
  get g id = None →
  is_unregister_for ids id u = true →
  (DispatchMessage ids (DispatchMessage ids g m).1.1 u).1.1 = g.
Proof.
  intros Hd Hm Hid Hnone Hu.
  rewrite (DispatchMessage_unregister_state ids _ id u) by assumption.
  rewrite (DispatchMessage_label_state ids g id m) by assumption.
  cbn [g_idToName set_idToName]. unfold get in Hnone.
  rewrite delete_insert_id by assumption.
  destruct g. reflexivity.
Qed.

Lemma label_then_unregister_restores_witness :
  (DispatchMessage sample_ids
     (DispatchMessage sample_ids listening
        (label_record 1000 2000 7 "Lives")).1.1
     (unregister sample_ids 1000 2000 7)).1.1 = listening.
Proof.
  exact (label_then_unregister_restores sample_ids listening 7
           (label_record 1000 2000 7 "Lives")
           (unregister sample_ids 1000 2000 7)
           sample_ids_distinct eq_refl ltac:(discriminate) eq_refl eq_refl).
Defined.

(** X25. The last label wins: two label records for the same non-zero
    identifier in a row leave the globals exactly as the second one alone
    would have. *)
Theorem relabel_last_wins ids g id m1 m2 :
  is_label_record_for id m1 = true →
  is_label_record_for id m2 = true →
  id ≠ 0 →
  (DispatchMessage ids (DispatchMessage ids g m1).1.1 m2).1.1
  = (DispatchMessage ids g m2).1.1
  ∧ get (DispatchMessage ids (DispatchMessage ids g m1).1.1 m2).1.1 id
    = Some (decoded_label (MSG_copydata m2)).
Proof.
  intros H1 H2 Hid.
  rewrite (DispatchMessage_label_state ids _ id m2) by assumption.
  rewrite (DispatchMessage_label_state ids g id m1) by assumption.
  rewrite (DispatchMessage_label_state ids g id m2) by assumption.
  cbn [g_idToName set_idToName]. rewrite insert_insert_eq.
  split; [reflexivity|]. unfold get. cbn [g_idToName set_idToName].
  apply lookup_insert_eq.
Qed.

Lemma relabel_last_wins_witness :
  (DispatchMessage sample_ids
     (DispatchMessage sample_ids listening
        (label_record 1000 2000 7 "Lives")).1.1
     (label_record 1000 2000 7 "Score")).1.1
  = (DispatchMessage sample_ids listening (label_record 1000 2000 7 "Score")).1.1.
Proof.
  exact (proj1 (relabel_last_wins sample_ids listening 7
                  (label_record 1000 2000 7 "Lives")
                  (label_record 1000 2000 7 "Score")
                  eq_refl eq_refl ltac:(discriminate))).
Defined.
